(** * JR Tech Solutions: the contact-form round trip

    A shallow embedding of the behaviour of the repository:

    - [backend/server.js]: the Express handlers [app.post('/contact')] and
      [app.get('/')];
    - [frontend/src/App.jsx]: the form controller [handleContactSubmit], the
      contact form it is attached to, and the mount effect of [App].

    The JavaScript values that flow through both (request bodies, JSON
    replies, React state) are modelled by one type [jsval]; objects are
    finite maps from property names to values. *)

From Stdlib Require Import ZArith String Ascii.
From Stdlib Require Import Floats.SpecFloat.
From stdpp Require Import gmap strings list fin_maps.

Local Open Scope string_scope.

(** ** JavaScript values *)

Module JS.

(** The values [JSON.parse] can build, and [undefined], which a property
    read yields for a name the object does not have.  A number is the
    IEEE 754 double it denotes. *)
#[warnings="-register-all"] Inductive jsval : Type :=
| JUndefined
| JNull
| JBool (b : bool)
| JNumber (x : spec_float)
| JString (s : string)
| JArray (elems : list jsval)
| JObject (props : gmap string jsval).

(** [ToBoolean]: what [!v], [v || w] and [if (v)] test.  The falsy values
    are [undefined], [null], [false], [+0], [-0], [NaN] and the empty
    string; arrays and objects are truthy, also when empty. *)
Definition ToBoolean (v : jsval) : bool :=
  match v with
  | JUndefined | JNull => false
  | JBool b => b
  | JNumber (S754_zero _) | JNumber S754_nan => false
  | JNumber _ => true
  | JString EmptyString => false
  | JString _ => true
  | JArray _ | JObject _ => true
  end.

(** [a || b] *)
Definition or_else (a b : jsval) : jsval :=
  if ToBoolean a then a else b.

(** [o.k] on the object with own properties [o], for a name [k] that
    [Object.prototype] does not define: the own property, else
    [undefined]. *)
Definition prop (o : gmap string jsval) (k : string) : jsval :=
  default JUndefined (o !! k).

(** [v.k] on an arbitrary value, for a name [k] that is neither an index,
    nor [length], nor defined on a prototype ([email] and [message] are
    the only names this program reads).  [None] is the [TypeError] raised
    on [undefined] and [null]; primitives and arrays have no such
    property. *)
Definition member (v : jsval) (k : string) : option jsval :=
  match v with
  | JUndefined | JNull => None
  | JObject o => Some (prop o k)
  | JBool _ | JNumber _ | JString _ | JArray _ => Some JUndefined
  end.

Definition join (sep : string) (parts : list string) : string :=
  match parts with
  | [] => ""
  | p :: ps => fold_left (fun acc q => acc ++ sep ++ q) ps p
  end.

Section ToString.

(** [Number.prototype.toString] (shortest round-trip decimal) is a
    built-in of the engine; it is taken as given. *)
Variable Number_toString : spec_float -> string.

(** [ToString], as a template literal [`${v}`] applies it; [None] is the
    [TypeError] it can raise.  An array is joined with commas, its [null]
    and [undefined] elements printing as nothing.  An object is converted
    by the first callable of its [toString] and [valueOf]: for an object
    out of [JSON.parse] that is [Object.prototype.toString], which prints
    [[object Object]], unless the object has a property of its own named
    [toString]; that one, a JSON value, is not callable and hides the
    inherited method, and since [valueOf] gives back the object (or is
    hidden in turn), the conversion fails. *)
Fixpoint ToString (v : jsval) : option string :=
  match v with
  | JUndefined => Some "undefined"
  | JNull => Some "null"
  | JBool true => Some "true"
  | JBool false => Some "false"
  | JNumber x => Some (Number_toString x)
  | JString s => Some s
  | JArray elems =>
      join "," <$>
        (fix each (l : list jsval) : option (list string) :=
           match l with
           | [] => Some []
           | e :: rest =>
               match match e with
                     | JUndefined | JNull => Some ""
                     | _ => ToString e
                     end, each rest with
               | Some text, Some texts => Some (text :: texts)
               | _, _ => None
               end
           end) elems
  | JObject props =>
      match props !! "toString" with
      | Some _ => None
      | None => Some "[object Object]"
      end
  end.

End ToString.

End JS.

Import JS.

(** ** The backend: [backend/server.js] *)

Module Server.

(** [req]: the handlers read [req.body] only.  [express.json()] has left
    there the object it parsed from the JSON text of the request, given
    by its own properties (for a JSON array, its indices); the empty
    object when there was nothing to parse. *)
Record Request : Type := { body : gmap string jsval }.

(** What [res.json] and [res.send] put on the wire; [ErrorPage] is the
    HTML page with which Express answers for a handler that threw. *)
Inductive Payload : Type :=
| Json (v : jsval)
| Text (s : string)
| ErrorPage.

(** [res]: the status code and what has been sent, if anything yet. *)
Record Response : Type := { statusCode : Z; sent : option Payload }.

(** The response object a handler is handed: status 200, nothing sent. *)
Definition fresh_res : Response := {| statusCode := 200; sent := None |}.

(** [res.status(code)] *)
Definition res_status (code : Z) (res : Response) : Response :=
  {| statusCode := code; sent := sent res |}.

(** [res.json(v)] *)
Definition res_json (v : jsval) (res : Response) : Response :=
  {| statusCode := statusCode res; sent := Some (Json v) |}.

(** [res.send(s)] on a string *)
Definition res_send (s : string) (res : Response) : Response :=
  {| statusCode := statusCode res; sent := Some (Text s) |}.

(** The process log stream: the strings handed to [console.log], oldest
    first. *)
Definition Console : Type := list string.

(** [console.log(line)] *)
Definition console_log (line : string) (out : Console) : Console :=
  (out ++ [line])%list.

(** The escape [\n] of a JavaScript string literal. *)
Definition LF : string := String (ascii_of_nat 10) EmptyString.

(** The object literal [{ success: b, message: m }]. *)
Definition reply (b : bool) (m : string) : jsval :=
  JObject {[ "success" := JBool b; "message" := JString m ]}.

(** How a handler ends: it returns, or a [TypeError] escapes it. *)
Inductive Exit : Type :=
| Returned
| Threw.

(** A route handler: from the request, the response object and the log to
    the way it ends and what it has made of the response and the log. *)
Definition Handler : Type :=
  Request -> Response -> Console -> Exit * Response * Console.

Section Handlers.

Variable Number_toString : spec_float -> string.

(** [app.post('/contact', (req, res) => { ... })].  Each template literal is
    evaluated before the [console.log] it is the argument of: when the
    conversion of a field throws, that line and the following ones are not
    logged and nothing is sent. *)
Definition post_contact : Handler := fun req res out =>
  let email := prop (body req) "email" in
  let message := prop (body req) "message" in
  if negb (ToBoolean email) || negb (ToBoolean message) then
    (Returned,
     res_json (reply false "Email and message are required.")
       (res_status 400 res), out)
  else
    let out := console_log (LF ++ "--- New Contact Form Submission ---") out in
    match ToString Number_toString email with
    | None => (Threw, res, out)
    | Some email_text =>
        let out := console_log ("Email: " ++ email_text) out in
        match ToString Number_toString message with
        | None => (Threw, res, out)
        | Some message_text =>
            let out := console_log ("Message: " ++ message_text) out in
            let out := console_log ("-----------------------------------" ++ LF) out in
            (Returned,
             res_json (reply true "Your message has been sent successfully!")
               (res_status 200 res), out)
        end
    end.

End Handlers.

(** [app.get('/', (req, res) => { ... })] *)
Definition get_root : Handler := fun req res out =>
  (Returned,
   res_send "JR Tech Solutions Backend is running. Ready to receive POST requests at /contact." res,
   out).

(** What Express does with an error that escapes a handler, no error
    middleware being installed: when nothing has been sent yet, status 500
    and its HTML error page. *)
Definition default_error_handler (res : Response) : Response :=
  match sent res with
  | None => {| statusCode := 500; sent := Some ErrorPage |}
  | Some _ => res
  end.

(** One exchange: Express calls the handler of the route with the request
    and a fresh response object, and answers itself when the handler
    throws. *)
Definition serve (handler : Handler) (req : Request) (out : Console)
  : Response * Console :=
  match handler req fresh_res out with
  | (Returned, res, out') => (res, out')
  | (Threw, res, out') => (default_error_handler res, out')
  end.

(** The limit of [express.json()] on the size of a request body, its
    default ['100kb'], in bytes. *)
Definition json_limit : Z := 102400.

(** [app.use(express.json())] on a request whose body is the JSON text
    [text] of the object [parsed]: [req.body] for the handlers, or [None]
    when the text is over the limit, which Express answers itself with
    status 413 and its HTML error page, no handler being called. *)
Definition express_json (text : string) (parsed : gmap string jsval)
  : option Request :=
  if (json_limit <? Z.of_nat (String.length text))%Z then None
  else Some {| body := parsed |}.

End Server.

(** ** The form controller: [frontend/src/App.jsx] *)

Module Client.

(** The five [useState] cells of [App].  [contactSuccess] is [null]
    ([None]), [true] or [false]; [contactFeedback] holds whatever value
    the handler stores there. *)
Record State : Type := {
  contactEmail : string;
  contactMessage : string;
  contactLoading : bool;
  contactSuccess : option bool;
  contactFeedback : jsval
}.

(** The state of the first render. *)
Definition initial : State :=
  {| contactEmail := ""; contactMessage := ""; contactLoading := false;
     contactSuccess := None; contactFeedback := JString "" |}.

(** What the [try] block can throw. *)
Inductive Thrown : Type :=
| FetchFailed      (* [fetch] rejects: no response could be obtained *)
| BodyNotJson      (* [response.json()] rejects: the body is not JSON *)
| ReadOfNullish.   (* [result.message] on [null] *)

(** What [handleContactSubmit] acts on: the React state, the submit event
    [e], and the browser console. *)
Record World : Type := {
  ui : State;
  defaultPrevented : bool;
  console_errors : list (string * Thrown)
}.

(** The options argument of [fetch]; [payload] is the value handed to
    [JSON.stringify]. *)
Record FetchInit : Type := {
  method : string;
  headers : list (string * string);
  payload : jsval
}.

(** A response as [fetch] resolves with it: its status, and its body as
    [response.json()] will find it. *)
Inductive HttpBody : Type :=
| NotJson
| JsonText (v : jsval).

Record HttpResponse : Type := { status : Z; content : HttpBody }.

(** [response.ok]: the status is in the range 200-299. *)
Definition ok (response : HttpResponse) : bool :=
  (200 <=? status response)%Z && (status response <=? 299)%Z.

(** *** Computations that update the world and may throw *)

Inductive Completion (A : Type) : Type :=
| Normal (a : A)
| Throw (e : Thrown).
Arguments Normal {A} a.
Arguments Throw {A} e.

Definition M (A : Type) : Type := World -> Completion A * World.

#[export] Instance M_ret : MRet M := fun A a w => (Normal a, w).

#[export] Instance M_bind : MBind M := fun A B k m w =>
  match m w with
  | (Normal a, w') => k a w'
  | (Throw e, w') => (Throw e, w')
  end.

Definition throw {A} (e : Thrown) : M A := fun w => (Throw e, w).

(** [try { body } catch (error) { handler } finally { fin }] *)
Definition try_catch_finally {A} (body : M A) (handler : Thrown -> M A)
    (fin : M unit) : M A := fun w =>
  let '(c, w1) :=
    match body w with
    | (Normal a, w') => (Normal a, w')
    | (Throw e, w') => handler e w'
    end in
  match fin w1 with
  | (Normal _, w2) => (c, w2)
  | (Throw e, w2) => (Throw e, w2)
  end.

(** Reading a state cell. *)
Definition get {A} (cell : State -> A) : M A := fun w => (Normal (cell (ui w)), w).

Definition update (f : State -> State) : M unit := fun w =>
  (Normal tt,
   {| ui := f (ui w); defaultPrevented := defaultPrevented w;
      console_errors := console_errors w |}).

Definition setContactEmail (v : string) : M unit :=
  update (fun s =>
    {| contactEmail := v; contactMessage := contactMessage s;
       contactLoading := contactLoading s; contactSuccess := contactSuccess s;
       contactFeedback := contactFeedback s |}).

Definition setContactMessage (v : string) : M unit :=
  update (fun s =>
    {| contactEmail := contactEmail s; contactMessage := v;
       contactLoading := contactLoading s; contactSuccess := contactSuccess s;
       contactFeedback := contactFeedback s |}).

Definition setContactLoading (v : bool) : M unit :=
  update (fun s =>
    {| contactEmail := contactEmail s; contactMessage := contactMessage s;
       contactLoading := v; contactSuccess := contactSuccess s;
       contactFeedback := contactFeedback s |}).

Definition setContactSuccess (v : option bool) : M unit :=
  update (fun s =>
    {| contactEmail := contactEmail s; contactMessage := contactMessage s;
       contactLoading := contactLoading s; contactSuccess := v;
       contactFeedback := contactFeedback s |}).

Definition setContactFeedback (v : jsval) : M unit :=
  update (fun s =>
    {| contactEmail := contactEmail s; contactMessage := contactMessage s;
       contactLoading := contactLoading s; contactSuccess := contactSuccess s;
       contactFeedback := v |}).

(** [e.preventDefault()] *)
Definition preventDefault : M unit := fun w =>
  (Normal tt,
   {| ui := ui w; defaultPrevented := true; console_errors := console_errors w |}).

(** [console.error(label, error)] *)
Definition console_error (label : string) (error : Thrown) : M unit := fun w =>
  (Normal tt,
   {| ui := ui w; defaultPrevented := defaultPrevented w;
      console_errors := (console_errors w ++ [(label, error)])%list |}).

(** [await response.json()] *)
Definition response_json (response : HttpResponse) : M jsval :=
  match content response with
  | JsonText v => mret v
  | NotJson => throw BodyNotJson
  end.

(** [v.k], throwing on [undefined] and [null]. *)
Definition read_member (v : jsval) (k : string) : M jsval :=
  match member v k with
  | Some x => mret x
  | None => throw ReadOfNullish
  end.

Definition CONTACT_API_URL : string := "http://localhost:3001/contact".

Section Controller.

(** The network between the page and whatever answers at the URL: the
    response [fetch] resolves with, or [None] when it rejects. *)
Variable network : string -> FetchInit -> option HttpResponse.

(** [await fetch(url, init)] *)
Definition fetch (u : string) (init : FetchInit) : M HttpResponse :=
  match network u init with
  | Some response => mret response
  | None => throw FetchFailed
  end.

(** The request of a submission with the given field values. *)
Definition submission (email message : string) : FetchInit :=
  {| method := "POST";
     headers := [("Content-Type", "application/json")];
     payload := JObject {[ "email" := JString email;
                           "message" := JString message ]} |}.

(** [const handleContactSubmit = async (e) => { ... }].  [contactEmail] and
    [contactMessage] are read as the render the handler belongs to has
    them: the setters that run before the [fetch] do not touch them. *)
Definition handleContactSubmit : M unit :=
  preventDefault;;
  setContactLoading true;;
  setContactSuccess None;;
  setContactFeedback (JString "");;
  try_catch_finally
    (email ← get contactEmail;
     message ← get contactMessage;
     response ← fetch CONTACT_API_URL (submission email message);
     result ← response_json response;
     if ok response then
       setContactSuccess (Some true);;
       feedback ← read_member result "message";
       setContactFeedback feedback;;
       setContactEmail "";;
       setContactMessage ""
     else
       setContactSuccess (Some false);;
       feedback ← read_member result "message";
       setContactFeedback
         (or_else feedback (JString "Something went wrong. Please try again.")))
    (fun error =>
       console_error "Error submitting contact form:" error;;
       setContactSuccess (Some false);;
       setContactFeedback
         (JString "Network error. Please ensure the backend server is running."))
    (setContactLoading false).

End Controller.

End Client.

(** ** The page against its own backend *)

Module System.
Import Server Client.

(** Strings stand for the bytes of their UTF-8 encoding, which is what
    travels.  [DQ] is the double quote. *)
Definition DQ : string := String (ascii_of_nat 34) EmptyString.

Definition hex (n : nat) : string :=
  match n with
  | 0 => "0" | 1 => "1" | 2 => "2" | 3 => "3" | 4 => "4" | 5 => "5"
  | 6 => "6" | 7 => "7" | 8 => "8" | 9 => "9" | 10 => "a" | 11 => "b"
  | 12 => "c" | 13 => "d" | 14 => "e" | _ => "f"
  end.

(** How [JSON.stringify] writes one byte of a string: the short escapes,
    [\u00XX] for the other control characters, the byte itself
    otherwise. *)
Definition json_escape (c : ascii) : string :=
  match nat_of_ascii c with
  | 8 => "\b"
  | 9 => "\t"
  | 10 => "\n"
  | 12 => "\f"
  | 13 => "\r"
  | 34 => "\" ++ DQ
  | 92 => "\\"
  | n =>
      if Nat.ltb n 32 then "\u00" ++ hex (n / 16) ++ hex (n mod 16)
      else String c EmptyString
  end.

Fixpoint json_chars (s : string) : string :=
  match s with
  | EmptyString => ""
  | String c rest => json_escape c ++ json_chars rest
  end.

Definition JSON_quote (s : string) : string := DQ ++ json_chars s ++ DQ.

(** [JSON.stringify({ email: contactEmail, message: contactMessage })] *)
Definition JSON_stringify_submission (email message : string) : string :=
  "{" ++ JSON_quote "email" ++ ":" ++ JSON_quote email ++ ","
      ++ JSON_quote "message" ++ ":" ++ JSON_quote message ++ "}".

(** The network when the page talks to [backend/server.js], listening on
    its default port: a [POST] to [CONTACT_API_URL] announced as JSON,
    whose text is that of an object [o] of two strings [email] and
    [message], goes through [express.json()]; within the limit it reaches
    [post_contact] with [req.body = o] ([JSON.parse] giving back what
    [JSON.stringify] wrote), and the page receives the status and the JSON
    the handler sent; over the limit the page receives status 413 and a
    page that is not JSON.  Anything else is left unanswered. *)
Definition loopback (Number_toString : spec_float -> string) (out : Console)
    (u : string) (init : FetchInit) : option HttpResponse :=
  match payload init with
  | JObject o =>
      match o !! "email", o !! "message" with
      | Some (JString email), Some (JString message) =>
          if bool_decide (u = CONTACT_API_URL ∧ method init = "POST"
                          ∧ ("Content-Type", "application/json") ∈ headers init
                          ∧ size o = 2) then
            match express_json (JSON_stringify_submission email message) o with
            | Some req =>
                let res := (serve (post_contact Number_toString) req out).1 in
                Some {| status := statusCode res;
                        content := match sent res with
                                   | Some (Json v) => JsonText v
                                   | _ => NotJson
                                   end |}
            | None => Some {| status := 413; content := NotJson |}
            end
          else None
      | _, _ => None
      end
  | _ => None
  end.

End System.

(** ** The contact form as rendered: [<form onSubmit={handleContactSubmit}>] *)

Module Form.
Import Client.

(** What stands at a place of the JSX where the source writes
    [{cond && <span className=...>{child}</span>}]: the [span], or the
    falsy value [&&] evaluated to. *)
Inductive Slot : Type :=
| Value (v : jsval)
| Span (className : string) (child : jsval).

(** [a && element] *)
Definition and_then (a : jsval) (element : Slot) : Slot :=
  if ToBoolean a then element else Value a.

(** [contactSuccess ? a : b], on the cell that holds [null], [true] or
    [false]. *)
Definition if_success {A} (success : option bool) (a b : A) : A :=
  match success with
  | Some true => a
  | Some false | None => b
  end.

(** The parts of the form that depend on the state, in the element tree
    that [App] returns. *)
Record Controls : Type := {
  email_value : string;      (* [<input value={contactEmail}>] *)
  message_value : string;    (* [<textarea value={contactMessage}>] *)
  sending : Slot;            (* [{contactLoading && <span>Sending...</span>}] *)
  feedback : Slot;           (* [{contactFeedback && (<span>...</span>)}] *)
  send_disabled : bool       (* [<button disabled={contactLoading}>] *)
}.

(** The element tree of the form in state [s]: evaluating the JSX builds
    the elements and cannot fail; what React then makes of the children is
    [on_screen] below. *)
Definition render (s : State) : Controls :=
  {| email_value := contactEmail s;
     message_value := contactMessage s;
     sending :=
       and_then (JBool (contactLoading s))
         (Span "text-slate-400 text-sm mr-3" (JString "Sending..."));
     feedback :=
       and_then (contactFeedback s)
         (Span ("text-sm mr-3 "
                ++ if_success (contactSuccess s) "text-green-400" "text-red-400")
               (contactFeedback s));
     send_disabled := contactLoading s |}.

Section Display.

Variable Number_toString : spec_float -> string.

(** The text React puts in the document for a value used as a child, as
    [{contactFeedback}] is: the string itself, the decimal of a number,
    nothing for a boolean, [null] or [undefined], the texts of its elements
    for an array.  [None]: React throws, a plain object being no valid
    child. *)
Fixpoint child_text (v : jsval) : option string :=
  match v with
  | JUndefined | JNull | JBool _ => Some ""
  | JNumber x => Some (Number_toString x)
  | JString s => Some s
  | JArray elems =>
      String.concat "" <$>
        (fix each (l : list jsval) : option (list string) :=
           match l with
           | [] => Some []
           | e :: rest =>
               match child_text e, each rest with
               | Some text, Some texts => Some (text :: texts)
               | _, _ => None
               end
           end) elems
  | JObject _ => None
  end.

(** The text shown at a slot. *)
Definition slot_text (slot : Slot) : option string :=
  match slot with
  | Value v => child_text v
  | Span _ child => child_text child
  end.

(** What is on screen of the form in state [s]: the tree [render] built,
    when React can commit it; [None] when a child makes React throw, upon
    which, [App] having no error boundary, the whole tree is removed. *)
Definition on_screen (s : State) : option Controls :=
  match slot_text (sending (render s)), slot_text (feedback (render s)) with
  | Some _, Some _ => Some (render s)
  | _, _ => None
  end.

End Display.

(** [onChange={(e) => setContactEmail(e.target.value)}] *)
Definition onChange_email (value : string) : M unit := setContactEmail value.

(** [onChange={(e) => setContactMessage(e.target.value)}] *)
Definition onChange_message (value : string) : M unit := setContactMessage value.

(** The statements of [handleContactSubmit] that run before its first
    [await]: the state they leave is the one on screen while the request is
    under way. *)
Definition until_first_await : M unit :=
  preventDefault;;
  setContactLoading true;;
  setContactSuccess None;;
  setContactFeedback (JString "").

End Form.

(** ** The mount effect: [useEffect(() => { ... }, [])] *)

Module Mount.

(** The document as the effect sees it: its elements in document order,
    each by the set of its class names. *)
Definition Element : Type := gset string.

(** [element.classList.add(name)] *)
Definition classList_add (name : string) (element : gset string) : gset string :=
  {[ name ]} ∪ element.

(** [document.querySelector('.' + name)]: the position of the first element
    of that class, [None] for [null]. *)
Fixpoint querySelector (name : string) (document : list (gset string)) : option nat :=
  match document with
  | [] => None
  | element :: rest =>
      if bool_decide (name ∈ element) then Some 0
      else S <$> querySelector name rest
  end.

(** One block of the effect:
    [const el = document.querySelector('.c'); if (el) { el.classList.add(a); }] *)
Definition animate (c a : string) (document : list (gset string))
  : list (gset string) :=
  match querySelector c document with
  | Some i => alter (classList_add a) i document
  | None => document
  end.

(** The six blocks, in the order of the source. *)
Definition mount_effect (document : list (gset string)) : list (gset string) :=
  let document := animate "hero-left" "hero-left-animate" document in
  let document := animate "hero-right" "hero-right-animate" document in
  let document := animate "chart-content" "chart-animate" document in
  let document := animate "floating-card" "floating-card-animate" document in
  let document := animate "pendrive-mockup" "pendrive-mockup-animate" document in
  animate "plug-launch" "plug-launch-animate" document.

End Mount.

(** ** Vocabulary of the properties *)

(** A field of the request body is missing: absent, or the empty string. *)
Definition missing (field : option jsval) : Prop :=
  field = None ∨ field = Some (JString "").

(** The world a submission from [w] ends in when [e] was thrown and caught:
    every [catch] run of [handleContactSubmit] ends there. *)
Definition failed_world (w : Client.World) (e : Client.Thrown) : Client.World :=
  let s := Client.ui w in
  {| Client.ui :=
       {| Client.contactEmail := Client.contactEmail s;
          Client.contactMessage := Client.contactMessage s;
          Client.contactLoading := false;
          Client.contactSuccess := Some false;
          Client.contactFeedback :=
            JString "Network error. Please ensure the backend server is running." |};
     Client.defaultPrevented := true;
     Client.console_errors :=
       (Client.console_errors w ++ [("Error submitting contact form:", e)])%list |}.

(** The world of a page on which [email] and [message] have been typed and
    nothing submitted yet. *)
Definition typed (email message : string) : Client.World :=
  {| Client.ui :=
       {| Client.contactEmail := email; Client.contactMessage := message;
          Client.contactLoading := false; Client.contactSuccess := None;
          Client.contactFeedback := JString "" |};
     Client.defaultPrevented := false;
     Client.console_errors := [] |}.

(** A network on which every request is answered with the given status and
    a body that is not JSON (an HTML error page, say). *)
Definition answers_without_json (code : Z)
  : string → Client.FetchInit → option Client.HttpResponse :=
  fun _ _ => Some {| Client.status := code; Client.content := Client.NotJson |}.

(** A network on which no request gets a response. *)
Definition unreachable : string → Client.FetchInit → option Client.HttpResponse :=
  fun _ _ => None.

(** The characters [String.prototype.trim] removes, among ASCII. *)
Definition is_whitespace (c : ascii) : bool :=
  match nat_of_ascii c with
  | 9 | 10 | 11 | 12 | 13 | 32 => true
  | _ => false
  end.

Definition whitespace_only (s : string) : bool :=
  forallb is_whitespace (list_ascii_of_string s).

(** The values a field of the body can hold that the guard of
    [post_contact] takes for missing. *)
Definition falsy (v : jsval) : Prop :=
  v = JUndefined ∨ v = JNull ∨ v = JBool false ∨ v = JString ""
  ∨ (∃ sign, v = JNumber (S754_zero sign)) ∨ v = JNumber S754_nan.

(** The class pairs of the mount effect: the class looked up, the class
    added. *)
Definition animations : list (string * string) :=
  [ ("hero-left", "hero-left-animate");
    ("hero-right", "hero-right-animate");
    ("chart-content", "chart-animate");
    ("floating-card", "floating-card-animate");
    ("pendrive-mockup", "pendrive-mockup-animate");
    ("plug-launch", "plug-launch-animate") ].

(** The blocks of an effect run one after the other. *)
Definition animate_all (pairs : list (string * string))
    (document : list (gset string)) : list (gset string) :=
  foldl (fun d p => Mount.animate p.1 p.2 d) document pairs.

(** No class an effect adds is a class it looks up. *)
Definition separate (pairs : list (string * string)) : Prop :=
  Forall (fun p => Forall (fun q => q.2 ≠ p.1) pairs) pairs.

(** An element before and after an effect that adds classes among [names]:
    it keeps its classes and gains none but those. *)
Definition grown (names : gset string) (before after : gset string) : Prop :=
  before ⊆ after ∧ after ⊆ names ∪ before.

(** The JSON text of a submission passes the size limit of
    [express.json()]. *)
Definition within_limit (email message : string) : Prop :=
  (Z.of_nat (String.length (System.JSON_stringify_submission email message))
   ≤ Server.json_limit)%Z.

(** * The backend *)

Import Server.

Section Backend.

Variable Number_toString : spec_float -> string.

Local Abbreviation post_contact := (Server.post_contact Number_toString).

Lemma ToBoolean_missing (o : gmap string jsval) (k : string) :
  missing (o !! k) → ToBoolean (prop o k) = false.
Proof. unfold prop. by intros [-> | ->]. Qed.

Lemma ToBoolean_nonempty (o : gmap string jsval) (k s : string) :
  o !! k = Some (JString s) → s ≠ "" → ToBoolean (prop o k) = true.
Proof. unfold prop. intros -> Hs. by destruct s. Qed.

Lemma prop_string (o : gmap string jsval) (k s : string) :
  o !! k = Some (JString s) → prop o k = JString s.
Proof. unfold prop. by intros ->. Qed.

(** The guard of the handler decides everything: a falsy field gives the
    400 reply and leaves the log alone. *)
Lemma post_contact_rejects (req : Request) (res : Response) (out : Console) :
  ToBoolean (prop (body req) "email") = false
  ∨ ToBoolean (prop (body req) "message") = false →
  post_contact req res out =
    (Returned,
     res_json (reply false "Email and message are required.")
       (res_status 400 res), out).
Proof.
  intros H. unfold Server.post_contact.
  destruct H as [-> | ->]; [done | by rewrite orb_true_r].
Qed.

(** Two truthy fields that convert to text give the 200 reply after four
    lines of log. *)
Lemma post_contact_logs (req : Request) (res : Response) (out : Console)
    (email_text message_text : string) :
  ToBoolean (prop (body req) "email") = true →
  ToBoolean (prop (body req) "message") = true →
  ToString Number_toString (prop (body req) "email") = Some email_text →
  ToString Number_toString (prop (body req) "message") = Some message_text →
  post_contact req res out =
    (Returned,
     res_json (reply true "Your message has been sent successfully!")
       (res_status 200 res),
     (out ++ [ (LF ++ "--- New Contact Form Submission ---")%string;
              ("Email: " ++ email_text)%string;
              ("Message: " ++ message_text)%string;
              ("-----------------------------------" ++ LF)%string ])%list).
Proof.
  intros He Hm Het Hmt. unfold Server.post_contact.
  rewrite He, Hm, Het, Hmt. cbn [negb orb].
  unfold console_log. by rewrite <- !app_assoc.
Qed.

(** A truthy [email] that does not convert makes the handler throw after
    the banner. *)
Lemma post_contact_throws_at_email (req : Request) (res : Response) (out : Console) :
  ToBoolean (prop (body req) "email") = true →
  ToBoolean (prop (body req) "message") = true →
  ToString Number_toString (prop (body req) "email") = None →
  post_contact req res out =
    (Threw, res,
     (out ++ [ (LF ++ "--- New Contact Form Submission ---")%string ])%list).
Proof.
  intros He Hm Het. unfold Server.post_contact.
  by rewrite He, Hm, Het.
Qed.

(** A truthy [message] that does not convert makes it throw after the
    line of the email. *)
Lemma post_contact_throws_at_message (req : Request) (res : Response) (out : Console)
    (email_text : string) :
  ToBoolean (prop (body req) "email") = true →
  ToBoolean (prop (body req) "message") = true →
  ToString Number_toString (prop (body req) "email") = Some email_text →
  ToString Number_toString (prop (body req) "message") = None →
  post_contact req res out =
    (Threw, res,
     (out ++ [ (LF ++ "--- New Contact Form Submission ---")%string;
              ("Email: " ++ email_text)%string ])%list).
Proof.
  intros He Hm Het Hmt. unfold Server.post_contact.
  rewrite He, Hm, Het, Hmt. cbn [negb orb].
  unfold console_log. by rewrite <- !app_assoc.
Qed.

(** The four ways a request can go. *)
Lemma post_contact_cases (req : Request) (res : Response) (out : Console) :
  (ToBoolean (prop (body req) "email") = false
   ∨ ToBoolean (prop (body req) "message") = false)
  ∨ ToBoolean (prop (body req) "email") = true
    ∧ ToBoolean (prop (body req) "message") = true
    ∧ ((∃ email_text message_text,
          ToString Number_toString (prop (body req) "email") = Some email_text
          ∧ ToString Number_toString (prop (body req) "message") = Some message_text)
       ∨ ToString Number_toString (prop (body req) "email") = None
       ∨ (∃ email_text,
            ToString Number_toString (prop (body req) "email") = Some email_text
            ∧ ToString Number_toString (prop (body req) "message") = None)).
Proof.
  destruct (ToBoolean (prop (body req) "email")); [| by left; left].
  destruct (ToBoolean (prop (body req) "message")); [| by left; right].
  right. split; [done |]. split; [done |].
  destruct (ToString Number_toString (prop (body req) "email")) as [et |];
    [| by right; left].
  destruct (ToString Number_toString (prop (body req) "message")) as [mt |];
    [left | right; right]; eauto.
Qed.

(** C1. A [POST /contact] whose body lacks [email] or lacks [message]
    (the field is absent or is the empty string) is answered with status
    400 and the JSON [{success: false, message: "Email and message are
    required."}], and the log stream is left as it was. *)
Theorem post_contact_missing_field (req : Request) (out : Console) :
  missing (body req !! "email") ∨ missing (body req !! "message") →
  serve post_contact req out =
    ({| statusCode := 400;
        sent := Some (Json (reply false "Email and message are required.")) |},
     out).
Proof.
  intros H. unfold serve. rewrite post_contact_rejects; [done |].
  destruct H as [H | H]; [left | right]; by apply ToBoolean_missing.
Qed.

(** C2. A [POST /contact] whose body has both [email] and [message] as
    non-empty strings is answered with status 200 and the JSON
    [{success: true, message: "Your message has been sent
    successfully!"}], the submission having been written to the log: the
    banner, the email, the message and the closing rule, in this order,
    after what the log held. *)
Theorem post_contact_accepts (req : Request) (out : Console) (email message : string) :
  body req !! "email" = Some (JString email) →
  body req !! "message" = Some (JString message) →
  email ≠ "" → message ≠ "" →
  serve post_contact req out =
    ({| statusCode := 200;
        sent := Some (Json (reply true "Your message has been sent successfully!")) |},
     (out ++ [ (LF ++ "--- New Contact Form Submission ---")%string;
              ("Email: " ++ email)%string;
              ("Message: " ++ message)%string;
              ("-----------------------------------" ++ LF)%string ])%list).
Proof.
  intros He Hm Hne Hnm. unfold serve.
  rewrite (post_contact_logs _ _ _ email message);
    eauto using ToBoolean_nonempty.
  - by rewrite (prop_string _ _ _ He).
  - by rewrite (prop_string _ _ _ Hm).
Qed.

(** C3, amended.  For every request whose [email] and [message], when both
    are truthy, convert to text (every string, number and boolean does; an
    object with a property of its own named [toString] does not, nor an
    array that holds one), the handler of [POST /contact] sends a JSON
    object with exactly the two properties [success], a boolean, and
    [message], a string; the status is 200 exactly when [success] is
    [true] and 400 exactly when it is [false], and it is never anything
    else. *)
Theorem post_contact_status_matches_success (req : Request) (out : Console) :
  (ToBoolean (prop (body req) "email") = true →
   ToBoolean (prop (body req) "message") = true →
   is_Some (ToString Number_toString (prop (body req) "email"))
   ∧ is_Some (ToString Number_toString (prop (body req) "message"))) →
  ∃ (success : bool) (message : string),
    sent (serve post_contact req out).1
      = Some (Json (JObject {[ "success" := JBool success;
                               "message" := JString message ]}))
    ∧ (statusCode (serve post_contact req out).1 = 200%Z ↔ success = true)
    ∧ (statusCode (serve post_contact req out).1 = 400%Z ↔ success = false)
    ∧ (statusCode (serve post_contact req out).1 = 200%Z
       ∨ statusCode (serve post_contact req out).1 = 400%Z).
Proof.
  intros Hprint. unfold serve.
  destruct (ToBoolean (prop (body req) "email")) eqn:He;
    [destruct (ToBoolean (prop (body req) "message")) eqn:Hm |].
  - destruct (Hprint eq_refl eq_refl) as [[et Het] [mt Hmt]].
    rewrite (post_contact_logs _ _ _ et mt) by done.
    exists true, "Your message has been sent successfully!". cbn.
    repeat split; auto; discriminate.
  - rewrite post_contact_rejects by auto.
    exists false, "Email and message are required.". cbn.
    repeat split; auto; discriminate.
  - rewrite post_contact_rejects by auto.
    exists false, "Email and message are required.". cbn.
    repeat split; auto; discriminate.
Qed.

(** C9. The guard tests emptiness only: there is a request whose [email]
    and [message] are non-empty strings made of white space alone (one
    blank each) that the handler answers with status 200 and
    [success: true]. *)
Theorem post_contact_accepts_white_space (out : Console) :
  ∃ (req : Request) (email message : string),
    body req !! "email" = Some (JString email)
    ∧ body req !! "message" = Some (JString message)
    ∧ email ≠ "" ∧ message ≠ ""
    ∧ whitespace_only email = true ∧ whitespace_only message = true
    ∧ statusCode (serve post_contact req out).1 = 200%Z
    ∧ sent (serve post_contact req out).1
        = Some (Json (reply true "Your message has been sent successfully!")).
Proof.
  exists {| body := {[ "email" := JString " "; "message" := JString " " ]} |}, " ", " ".
  assert (He : ({[ "email" := JString " "; "message" := JString " " ]}
                  : gmap string jsval) !! "email" = Some (JString " "))
    by reflexivity.
  assert (Hm : ({[ "email" := JString " "; "message" := JString " " ]}
                  : gmap string jsval) !! "message" = Some (JString " "))
    by reflexivity.
  unfold serve.
  rewrite (post_contact_logs _ _ _ " " " ")
    by (cbn [body]; eauto using ToBoolean_nonempty, f_equal, prop_string).
  cbn [body]. repeat split; done.
Qed.

End Backend.

(** C8. Whatever the request, [GET /] is answered with the fixed text
    "JR Tech Solutions Backend is running. Ready to receive POST requests at
    /contact.", sent as a string and not as JSON, under the default status
    200, and nothing is logged. *)
Theorem get_root_liveness (req : Request) (out : Console) :
  serve get_root req out =
    ({| statusCode := 200;
        sent := Some (Text "JR Tech Solutions Backend is running. Ready to receive POST requests at /contact.") |},
     out).
Proof. reflexivity. Qed.

(** * The form controller *)

Import Client.

Section Frontend.

Variable network : string → FetchInit → option HttpResponse.

Local Abbreviation submit := (handleContactSubmit network).

(** What [fetch] answers to the submission issued from [w]. *)
Local Abbreviation answer w :=
  (network CONTACT_API_URL
     (submission (contactEmail (ui w)) (contactMessage (ui w)))).

Ltac run_submit :=
  cbv [handleContactSubmit try_catch_finally fetch response_json read_member
       mbind M_bind mret M_ret throw get update preventDefault console_error
       setContactEmail setContactMessage setContactLoading setContactSuccess
       setContactFeedback ui defaultPrevented console_errors
       contactEmail contactMessage contactLoading contactSuccess
       contactFeedback].

(** The [catch] path: the fields stay, the failure is reported. *)
Lemma submit_caught_state (w : World) (e : Thrown) :
  failed_world w e =
    {| ui := {| contactEmail := contactEmail (ui w);
                contactMessage := contactMessage (ui w);
                contactLoading := false;
                contactSuccess := Some false;
                contactFeedback :=
                  JString "Network error. Please ensure the backend server is running." |};
       defaultPrevented := true;
       console_errors :=
         (console_errors w ++ [("Error submitting contact form:", e)])%list |}.
Proof. reflexivity. Qed.

Lemma submit_fetch_rejected (w : World) :
  answer w = None → submit w = (Normal tt, failed_world w FetchFailed).
Proof.
  intros H. destruct w as [[email message loading success feedback] p errs].
  run_submit. cbn in H. by rewrite H.
Qed.

Lemma submit_body_not_json (w : World) (response : HttpResponse) :
  answer w = Some response → content response = NotJson →
  submit w = (Normal tt, failed_world w BodyNotJson).
Proof.
  intros H Hc. destruct w as [[email message loading success feedback] p errs].
  run_submit. cbn in H. by rewrite H, Hc.
Qed.

Lemma submit_body_nullish (w : World) (response : HttpResponse) (result : jsval) :
  answer w = Some response → content response = JsonText result →
  member result "message" = None →
  submit w = (Normal tt, failed_world w ReadOfNullish).
Proof.
  intros H Hc Hm. destruct w as [[email message loading success feedback] p errs].
  run_submit. cbn in H. rewrite H, Hc, Hm. by destruct (ok response).
Qed.

Lemma submit_ok (w : World) (response : HttpResponse) (result message : jsval) :
  answer w = Some response → content response = JsonText result →
  member result "message" = Some message → ok response = true →
  submit w =
    (Normal tt,
     {| ui := {| contactEmail := ""; contactMessage := "";
                 contactLoading := false; contactSuccess := Some true;
                 contactFeedback := message |};
        defaultPrevented := true;
        console_errors := console_errors w |}).
Proof.
  intros H Hc Hm Hok. destruct w as [[email msg loading success feedback] p errs].
  run_submit. cbn in H. by rewrite H, Hc, Hok, Hm.
Qed.

Lemma submit_not_ok (w : World) (response : HttpResponse) (result message : jsval) :
  answer w = Some response → content response = JsonText result →
  member result "message" = Some message → ok response = false →
  submit w =
    (Normal tt,
     {| ui := {| contactEmail := contactEmail (ui w);
                 contactMessage := contactMessage (ui w);
                 contactLoading := false; contactSuccess := Some false;
                 contactFeedback :=
                   or_else message (JString "Something went wrong. Please try again.") |};
        defaultPrevented := true;
        console_errors := console_errors w |}).
Proof.
  intros H Hc Hm Hok. destruct w as [[email msg loading success feedback] p errs].
  run_submit. cbn in H. by rewrite H, Hc, Hok, Hm.
Qed.

(** C4, amended.  When the submission receives a success (2xx) response
    whose body is JSON for a value other than [null], the form ends with
    both fields empty, [contactSuccess = true], [contactFeedback] equal to
    the [message] of that value, and [contactLoading = false]. *)
Theorem submit_success_clears_form (w : World) (response : HttpResponse)
    (result message : jsval) :
  answer w = Some response → ok response = true →
  content response = JsonText result →
  member result "message" = Some message →
  ui (submit w).2 =
    {| contactEmail := ""; contactMessage := ""; contactLoading := false;
       contactSuccess := Some true; contactFeedback := message |}.
Proof. intros H Hok Hc Hm. by rewrite (submit_ok w response result message). Qed.

(** C5. When the request itself fails, no response being reachable, the
    form ends with [contactSuccess = false], [contactFeedback] equal to
    "Network error. Please ensure the backend server is running.", and
    [contactLoading = false]. *)
Theorem submit_network_failure (w : World) :
  answer w = None →
  contactSuccess (ui (submit w).2) = Some false
  ∧ contactFeedback (ui (submit w).2)
      = JString "Network error. Please ensure the backend server is running."
  ∧ contactLoading (ui (submit w).2) = false.
Proof. intros H. by rewrite submit_fetch_rejected. Qed.

(** Every run ends in one of three worlds. *)
Lemma submit_cases (w : World) :
  (∃ e, submit w = (Normal tt, failed_world w e))
  ∨ (∃ response result message,
       answer w = Some response ∧ ok response = true
       ∧ content response = JsonText result
       ∧ member result "message" = Some message
       ∧ submit w =
           (Normal tt,
            {| ui := {| contactEmail := ""; contactMessage := "";
                        contactLoading := false; contactSuccess := Some true;
                        contactFeedback := message |};
               defaultPrevented := true;
               console_errors := console_errors w |}))
  ∨ (∃ response result message,
       answer w = Some response ∧ ok response = false
       ∧ content response = JsonText result
       ∧ member result "message" = Some message
       ∧ submit w =
           (Normal tt,
            {| ui := {| contactEmail := contactEmail (ui w);
                        contactMessage := contactMessage (ui w);
                        contactLoading := false; contactSuccess := Some false;
                        contactFeedback :=
                          or_else message
                            (JString "Something went wrong. Please try again.") |};
               defaultPrevented := true;
               console_errors := console_errors w |})).
Proof.
  destruct (answer w) as [response |] eqn:H;
    [| left; eauto using submit_fetch_rejected].
  destruct (content response) as [| result] eqn:Hc;
    [left; eauto using submit_body_not_json |].
  destruct (member result "message") as [message |] eqn:Hm;
    [| left; eauto using submit_body_nullish].
  destruct (ok response) eqn:Hok; right; [left | right];
    exists response, result, message;
    eauto 10 using submit_ok, submit_not_ok.
Qed.

(** C6. Whatever the outcome of the request (a success response, a
    response that is not OK, no response at all, or a response whose body
    cannot be used), [handleContactSubmit] completes, without an
    exception escaping, in a state where [contactLoading = false]. *)
Theorem submit_always_leaves_loading (w : World) :
  ∃ w' : World, submit w = (Normal tt, w') ∧ contactLoading (ui w') = false.
Proof.
  destruct (submit_cases w) as [[e ->] | [(? & ? & ? & _ & _ & _ & _ & ->)
                                        | (? & ? & ? & _ & _ & _ & _ & ->)]];
    eauto.
Qed.

(** C7, amended.  When the submission receives a response that is not OK
    and whose body is JSON for a value other than [null], the form ends
    with [contactSuccess = false] and [contactFeedback] equal to the
    [message] of that value when it is truthy (for a string: not empty),
    and to "Something went wrong. Please try again." otherwise, which
    covers the value having no [message]. *)
Theorem submit_not_ok_reports_message (w : World) (response : HttpResponse)
    (result message : jsval) :
  answer w = Some response → ok response = false →
  content response = JsonText result →
  member result "message" = Some message →
  contactSuccess (ui (submit w).2) = Some false
  ∧ (ToBoolean message = true → contactFeedback (ui (submit w).2) = message)
  ∧ (ToBoolean message = false →
     contactFeedback (ui (submit w).2)
       = JString "Something went wrong. Please try again.")
  ∧ (message = JUndefined →
     contactFeedback (ui (submit w).2)
       = JString "Something went wrong. Please try again.").
Proof.
  intros H Hok Hc Hm. rewrite (submit_not_ok w response result message) by done.
  cbn. unfold or_else. repeat split.
  - by intros ->.
  - by intros ->.
  - by intros ->.
Qed.

(** C10. When the submission does not succeed, the response being not OK
    or the request having failed, [contactEmail] and [contactMessage] end
    as they were when the form was submitted. *)
Theorem submit_failure_keeps_fields (w : World) :
  answer w = None ∨ (∃ response, answer w = Some response ∧ ok response = false) →
  contactEmail (ui (submit w).2) = contactEmail (ui w)
  ∧ contactMessage (ui (submit w).2) = contactMessage (ui w).
Proof.
  intros H.
  destruct (submit_cases w) as [[e ->] | [(r & ? & ? & Hr & Hok & _ & _ & ->)
                                        | (? & ? & ? & _ & _ & _ & _ & ->)]];
    [done | | done].
  destruct H as [H | (r' & H & Hno)]; congruence.
Qed.

End Frontend.

(** * A field that cannot be printed *)

(** C3 as stated fails: for the body [{email: {toString: 1}, message: "hi"}]
    both fields are truthy, the banner is logged, and the template literal
    of the email throws; the handler sends nothing and Express answers
    with status 500 and its error page, which is no [{success, message}]
    object. *)
Lemma unprintable_email_is_answered_500 :
  serve (post_contact (fun _ => "NaN"))
    {| body := {[ "email" := JObject {[ "toString" := JNumber (S754_finite false 1 0) ]};
                  "message" := JString "hi" ]} |} []
  = ({| statusCode := 500; sent := Some ErrorPage |},
     [ (LF ++ "--- New Contact Form Submission ---")%string ])
  ∧ ¬ (∃ (success : bool) (message : string),
         sent (serve (post_contact (fun _ => "NaN"))
                 {| body := {[ "email" := JObject {[ "toString" :=
                                                      JNumber (S754_finite false 1 0) ]};
                               "message" := JString "hi" ]} |} []).1
         = Some (Json (JObject {[ "success" := JBool success;
                                  "message" := JString message ]}))
         ∧ (statusCode (serve (post_contact (fun _ => "NaN"))
                 {| body := {[ "email" := JObject {[ "toString" :=
                                                      JNumber (S754_finite false 1 0) ]};
                               "message" := JString "hi" ]} |} []).1 = 200%Z
            ∨ statusCode (serve (post_contact (fun _ => "NaN"))
                 {| body := {[ "email" := JObject {[ "toString" :=
                                                      JNumber (S754_finite false 1 0) ]};
                               "message" := JString "hi" ]} |} []).1 = 400%Z)).
Proof.
  assert (Hrun : serve (post_contact (fun _ => "NaN"))
                   {| body := {[ "email" := JObject {[ "toString" :=
                                                        JNumber (S754_finite false 1 0) ]};
                                 "message" := JString "hi" ]} |} []
                 = ({| statusCode := 500; sent := Some ErrorPage |},
                    [ (LF ++ "--- New Contact Form Submission ---")%string ]))
    by (vm_compute; reflexivity).
  rewrite Hrun. split; [done |].
  intros (success & message & Hsent & _). discriminate Hsent.
Qed.

(** * Responses whose body is not JSON *)

(** C4 as stated fails: a response with status 200 whose body is not JSON
    is a success response, yet [response.json()] throws before the success
    branch is reached; the [catch] block reports a failure and the fields
    keep what was typed. *)
Lemma success_status_without_json_is_reported_as_failure :
  answers_without_json 200 CONTACT_API_URL (submission "a@b.com" "hi")
    = Some {| status := 200; content := NotJson |}
  ∧ ok {| status := 200; content := NotJson |} = true
  ∧ ui (handleContactSubmit (answers_without_json 200) (typed "a@b.com" "hi")).2
    = {| contactEmail := "a@b.com"; contactMessage := "hi";
         contactLoading := false; contactSuccess := Some false;
         contactFeedback :=
           JString "Network error. Please ensure the backend server is running." |}
  ∧ ¬ (contactEmail (ui (handleContactSubmit (answers_without_json 200)
                           (typed "a@b.com" "hi")).2) = ""
       ∧ contactMessage (ui (handleContactSubmit (answers_without_json 200)
                               (typed "a@b.com" "hi")).2) = ""
       ∧ contactSuccess (ui (handleContactSubmit (answers_without_json 200)
                               (typed "a@b.com" "hi")).2) = Some true
       ∧ contactLoading (ui (handleContactSubmit (answers_without_json 200)
                               (typed "a@b.com" "hi")).2) = false).
Proof.
  assert (Hrun : handleContactSubmit (answers_without_json 200) (typed "a@b.com" "hi")
                 = (Normal tt, failed_world (typed "a@b.com" "hi") BodyNotJson))
    by (by apply (submit_body_not_json _ _ {| status := 200; content := NotJson |})).
  rewrite Hrun. repeat split. intros (Hemail & _). discriminate Hemail.
Qed.

(** C7 as stated fails: a response with status 500 whose body is not JSON
    is not OK and provides no message, yet the feedback is not "Something
    went wrong. Please try again." but the text of the [catch] block. *)
Lemma error_status_without_json_is_reported_as_network_error :
  answers_without_json 500 CONTACT_API_URL (submission "a@b.com" "hi")
    = Some {| status := 500; content := NotJson |}
  ∧ ok {| status := 500; content := NotJson |} = false
  ∧ contactFeedback
      (ui (handleContactSubmit (answers_without_json 500) (typed "a@b.com" "hi")).2)
    = JString "Network error. Please ensure the backend server is running."
  ∧ contactFeedback
      (ui (handleContactSubmit (answers_without_json 500) (typed "a@b.com" "hi")).2)
    ≠ JString "Something went wrong. Please try again.".
Proof.
  assert (Hrun : handleContactSubmit (answers_without_json 500) (typed "a@b.com" "hi")
                 = (Normal tt, failed_world (typed "a@b.com" "hi") BodyNotJson))
    by (by apply (submit_body_not_json _ _ {| status := 500; content := NotJson |})).
  rewrite Hrun. repeat split. cbn. discriminate.
Qed.

(** * The properties at the inputs of the specification *)

(** [{email: "", message: "hi"}] is rejected. *)
Lemma post_contact_missing_field_witness :
  (missing (body {| body := {[ "email" := JString ""; "message" := JString "hi" ]} |}
              !! "email")
   ∨ missing (body {| body := {[ "email" := JString ""; "message" := JString "hi" ]} |}
                !! "message"))
  ∧ serve (post_contact (fun _ => "NaN"))
      {| body := {[ "email" := JString ""; "message" := JString "hi" ]} |} []
    = ({| statusCode := 400;
          sent := Some (Json (reply false "Email and message are required.")) |},
       []).
Proof.
  assert (H : missing (body {| body := {[ "email" := JString "";
                                          "message" := JString "hi" ]} |}
                         !! "email")
              ∨ missing (body {| body := {[ "email" := JString "";
                                            "message" := JString "hi" ]} |}
                           !! "message"))
    by (left; right; reflexivity).
  split; [exact H |]. exact (post_contact_missing_field _ _ [] H).
Defined.

(** The reply to [{email: "a@b.com", message: "hi"}] has the shape and the
    status of a success. *)
Lemma post_contact_status_matches_success_witness :
  ∃ (success : bool) (message : string),
    sent (serve (post_contact (fun _ => "NaN"))
            {| body := {[ "email" := JString "a@b.com"; "message" := JString "hi" ]} |}
            []).1
    = Some (Json (JObject {[ "success" := JBool success;
                             "message" := JString message ]}))
    ∧ (statusCode (serve (post_contact (fun _ => "NaN"))
            {| body := {[ "email" := JString "a@b.com"; "message" := JString "hi" ]} |}
            []).1 = 200%Z ↔ success = true)
    ∧ (statusCode (serve (post_contact (fun _ => "NaN"))
            {| body := {[ "email" := JString "a@b.com"; "message" := JString "hi" ]} |}
            []).1 = 400%Z ↔ success = false)
    ∧ (statusCode (serve (post_contact (fun _ => "NaN"))
            {| body := {[ "email" := JString "a@b.com"; "message" := JString "hi" ]} |}
            []).1 = 200%Z
       ∨ statusCode (serve (post_contact (fun _ => "NaN"))
            {| body := {[ "email" := JString "a@b.com"; "message" := JString "hi" ]} |}
            []).1 = 400%Z).
Proof.
  apply (post_contact_status_matches_success (fun _ => "NaN")
           {| body := {[ "email" := JString "a@b.com"; "message" := JString "hi" ]} |}
           []).
  intros _ _. split; vm_compute; eexists; reflexivity.
Defined.

(** [{email: "a@b.com", message: "hi"}] is accepted and logged. *)
Lemma post_contact_accepts_witness :
  serve (post_contact (fun _ => "NaN"))
    {| body := {[ "email" := JString "a@b.com"; "message" := JString "hi" ]} |} []
  = ({| statusCode := 200;
        sent := Some (Json (reply true "Your message has been sent successfully!")) |},
     [ (LF ++ "--- New Contact Form Submission ---")%string;
       "Email: a@b.com"; "Message: hi";
       ("-----------------------------------" ++ LF)%string ]).
Proof.
  apply (post_contact_accepts (fun _ => "NaN")
           {| body := {[ "email" := JString "a@b.com"; "message" := JString "hi" ]} |}
           [] "a@b.com" "hi");
    [reflexivity | reflexivity | discriminate | discriminate].
Defined.

(** A submission of [a@b.com] and [hi] to the backend clears the form. *)
Lemma submit_success_clears_form_witness :
  ui (handleContactSubmit (System.loopback (fun _ => "NaN") [])
        (typed "a@b.com" "hi")).2
  = {| contactEmail := ""; contactMessage := ""; contactLoading := false;
       contactSuccess := Some true;
       contactFeedback := JString "Your message has been sent successfully!" |}.
Proof.
  apply (submit_success_clears_form (System.loopback (fun _ => "NaN") [])
           (typed "a@b.com" "hi")
           {| status := 200;
              content := JsonText (reply true "Your message has been sent successfully!") |}
           (reply true "Your message has been sent successfully!"));
    vm_compute; reflexivity.
Defined.

(** A submission on a network without a server ends in the network error. *)
Lemma submit_network_failure_witness :
  unreachable CONTACT_API_URL (submission "a@b.com" "hi") = None
  ∧ contactSuccess (ui (handleContactSubmit unreachable (typed "a@b.com" "hi")).2)
    = Some false
  ∧ contactFeedback (ui (handleContactSubmit unreachable (typed "a@b.com" "hi")).2)
    = JString "Network error. Please ensure the backend server is running."
  ∧ contactLoading (ui (handleContactSubmit unreachable (typed "a@b.com" "hi")).2)
    = false.
Proof.
  split; [reflexivity |].
  apply (submit_network_failure unreachable (typed "a@b.com" "hi")). reflexivity.
Defined.

(** A submission with the email left empty shows the backend's own
    message. *)
Lemma submit_not_ok_reports_message_witness :
  contactSuccess
    (ui (handleContactSubmit (System.loopback (fun _ => "NaN") []) (typed "" "hi")).2)
  = Some false
  ∧ contactFeedback
      (ui (handleContactSubmit (System.loopback (fun _ => "NaN") []) (typed "" "hi")).2)
    = JString "Email and message are required.".
Proof.
  destruct (submit_not_ok_reports_message (System.loopback (fun _ => "NaN") [])
              (typed "" "hi")
              {| status := 400;
                 content := JsonText (reply false "Email and message are required.") |}
              (reply false "Email and message are required.")
              (JString "Email and message are required."))
    as (Hs & Hm & _); [vm_compute; reflexivity ..|].
  split; [exact Hs | exact (Hm eq_refl)].
Defined.

(** The same submission leaves what was typed in place. *)
Lemma submit_failure_keeps_fields_witness :
  contactEmail
    (ui (handleContactSubmit (System.loopback (fun _ => "NaN") []) (typed "" "hi")).2)
  = ""
  ∧ contactMessage
      (ui (handleContactSubmit (System.loopback (fun _ => "NaN") []) (typed "" "hi")).2)
    = "hi".
Proof.
  apply (submit_failure_keeps_fields (System.loopback (fun _ => "NaN") [])
           (typed "" "hi")).
  right.
  exists {| status := 400;
            content := JsonText (reply false "Email and message are required.") |}.
  split; vm_compute; reflexivity.
Defined.

(** * More on the backend *)

Section BackendGuard.

Variable Number_toString : spec_float -> string.

Local Abbreviation post_contact := (Server.post_contact Number_toString).

Lemma ToBoolean_false_iff (v : jsval) : ToBoolean v = false ↔ falsy v.
Proof.
  unfold falsy. split.
  - destruct v as [| | [] | [] | [] | |]; cbn; intros H;
      try discriminate H; eauto 12.
  - intros [-> | [-> | [-> | [-> | [[sign ->] | ->]]]]]; reflexivity.
Qed.

(** What Express answers and what the log holds, in each of the four ways
    a request can go. *)
Lemma serve_post_contact_cases (req : Request) (out : Console) :
  ((ToBoolean (prop (body req) "email") = false
    ∨ ToBoolean (prop (body req) "message") = false)
   ∧ serve post_contact req out =
       ({| statusCode := 400;
           sent := Some (Json (reply false "Email and message are required.")) |},
        out))
  ∨ (ToBoolean (prop (body req) "email") = true
     ∧ ToBoolean (prop (body req) "message") = true
     ∧ ((∃ email_text message_text,
           ToString Number_toString (prop (body req) "email") = Some email_text
           ∧ ToString Number_toString (prop (body req) "message") = Some message_text
           ∧ serve post_contact req out =
               ({| statusCode := 200;
                   sent := Some (Json (reply true
                             "Your message has been sent successfully!")) |},
                (out ++ [ (LF ++ "--- New Contact Form Submission ---")%string;
                          ("Email: " ++ email_text)%string;
                          ("Message: " ++ message_text)%string;
                          ("-----------------------------------" ++ LF)%string ])%list))
        ∨ (ToString Number_toString (prop (body req) "email") = None
           ∧ serve post_contact req out =
               ({| statusCode := 500; sent := Some ErrorPage |},
                (out ++ [ (LF ++ "--- New Contact Form Submission ---")%string ])%list))
        ∨ (∃ email_text,
             ToString Number_toString (prop (body req) "email") = Some email_text
             ∧ ToString Number_toString (prop (body req) "message") = None
             ∧ serve post_contact req out =
                 ({| statusCode := 500; sent := Some ErrorPage |},
                  (out ++ [ (LF ++ "--- New Contact Form Submission ---")%string;
                            ("Email: " ++ email_text)%string ])%list)))).
Proof.
  unfold serve.
  destruct (post_contact_cases Number_toString req fresh_res out)
    as [H | (He & Hm & [(et & mt & Het & Hmt) | [Het | (et & Het & Hmt)]])].
  - left. split; [done |]. by rewrite post_contact_rejects.
  - right. do 2 (split; [done |]). left. exists et, mt. do 2 (split; [done |]).
    by rewrite (post_contact_logs _ _ _ _ et mt).
  - right. do 2 (split; [done |]). right; left. split; [done |].
    by rewrite post_contact_throws_at_email.
  - right. do 2 (split; [done |]). right; right. exists et. do 2 (split; [done |]).
    by rewrite (post_contact_throws_at_message _ _ _ _ et).
Qed.

(** X1. The request is turned down, with status 400, exactly when [email]
    or [message] is absent ([undefined]), [null], [false], the empty
    string, a zero or [NaN]; every other value, of whatever type, passes
    the guard. *)
Theorem post_contact_rejects_exactly_falsy (req : Request) (out : Console) :
  statusCode (serve post_contact req out).1 = 400%Z
  ↔ falsy (prop (body req) "email") ∨ falsy (prop (body req) "message").
Proof.
  rewrite <- !ToBoolean_false_iff.
  destruct (serve_post_contact_cases req out)
    as [[H ->] | (He & Hm & [(et & mt & _ & _ & ->)
                            | [[_ ->] | (et & _ & _ & ->)]])];
    cbn; rewrite ?He, ?Hm; split; try done; intros [? | ?]; discriminate.
Qed.


(** X3. Only the properties [email] and [message] of the body are read:
    two requests that agree on both get the same response and leave the
    same log, whatever else their bodies carry. *)
Theorem post_contact_reads_two_fields (req1 req2 : Request) (out : Console) :
  prop (body req1) "email" = prop (body req2) "email" →
  prop (body req1) "message" = prop (body req2) "message" →
  serve post_contact req1 out = serve post_contact req2 out.
Proof.
  intros He Hm. unfold serve, Server.post_contact. by rewrite He, Hm.
Qed.

(** X4. The handler keeps no state between requests: the response to a
    request, and the lines it adds to the log, are the same whatever has
    been logged before. *)
Theorem post_contact_stateless (req : Request) (out1 out2 : Console) :
  (serve post_contact req out1).1 = (serve post_contact req out2).1
  ∧ drop (length out1) (serve post_contact req out1).2
    = drop (length out2) (serve post_contact req out2).2.
Proof.
  destruct (serve_post_contact_cases req out1)
    as [[H ->] | (He & Hm & [(et & mt & Het & Hmt & ->)
                            | [[Het ->] | (et & Het & Hmt & ->)]])];
  destruct (serve_post_contact_cases req out2)
    as [[H' ->] | (He' & Hm' & [(et' & mt' & Het' & Hmt' & ->)
                               | [[Het' ->] | (et' & Het' & Hmt' & ->)]])];
    try (destruct H as [H | H]; congruence);
    try (destruct H' as [H' | H']; congruence);
    try congruence;
    cbn [fst snd]; rewrite ?drop_all, ?drop_app_length; split; congruence.
Qed.

End BackendGuard.

(** * More on the form controller *)

Import Form.

Section Controller.

Variable Number_toString : spec_float -> string.
Variable network : string → FetchInit → option HttpResponse.

Local Abbreviation submit := (handleContactSubmit network).
Local Abbreviation child_text := (Form.child_text Number_toString).
Local Abbreviation slot_text := (Form.slot_text Number_toString).
Local Abbreviation on_screen := (Form.on_screen Number_toString).

Local Abbreviation answer w :=
  (network CONTACT_API_URL
     (submission (contactEmail (ui w)) (contactMessage (ui w)))).

(** The form is on screen exactly when React can render the feedback, and
    then shows its text. *)
Lemma on_screen_feedback (s : State) :
  slot_text (feedback (render s)) = child_text (contactFeedback s)
  ∧ on_screen s = match child_text (contactFeedback s) with
                  | Some _ => Some (render s)
                  | None => None
                  end.
Proof.
  assert (Hf : slot_text (feedback (render s)) = child_text (contactFeedback s))
    by (unfold render, and_then; cbn; by destruct (ToBoolean (contactFeedback s))).
  split; [done |]. unfold Form.on_screen. rewrite Hf.
  unfold render, and_then; cbn. by destruct (contactLoading s).
Qed.

Lemma truthy_string (text : string) : ToBoolean (JString text) = true → text ≠ "".
Proof. by destruct text. Qed.


(** X7. A submission starts afresh: two pages holding the same email and
    message end in the same state, whatever loading flag, success flag and
    feedback each page had before. *)
Theorem submit_forgets_previous_outcome (w1 w2 : World) :
  contactEmail (ui w1) = contactEmail (ui w2) →
  contactMessage (ui w1) = contactMessage (ui w2) →
  ui (submit w1).2 = ui (submit w2).2.
Proof.
  intros He Hm.
  assert (Ha : answer w1 = answer w2) by (by rewrite He, Hm).
  destruct (submit_cases network w1)
    as [[e1 H1] | [(r1 & v1 & m1 & Hr1 & Hok1 & Hc1 & Hm1 & H1)
                  | (r1 & v1 & m1 & Hr1 & Hok1 & Hc1 & Hm1 & H1)]].
  - destruct (answer w1) as [r |] eqn:Hr.
    + symmetry in Ha. destruct (content r) as [| v] eqn:Hc.
      * rewrite (submit_body_not_json network w1 r), (submit_body_not_json network w2 r)
          by done.
        cbn. by rewrite He, Hm.
      * destruct (member v "message") as [m |] eqn:Hmem.
        -- destruct (ok r) eqn:Hok.
           ++ by rewrite (submit_ok network w1 r v m), (submit_ok network w2 r v m).
           ++ rewrite (submit_not_ok network w1 r v m), (submit_not_ok network w2 r v m)
                by done.
              cbn. by rewrite He, Hm.
        -- rewrite (submit_body_nullish network w1 r v), (submit_body_nullish network w2 r v)
             by done.
           cbn. by rewrite He, Hm.
    + symmetry in Ha.
      rewrite (submit_fetch_rejected network w1), (submit_fetch_rejected network w2)
        by done.
      cbn. by rewrite He, Hm.
  - rewrite Ha in Hr1.
    by rewrite H1, (submit_ok network w2 r1 v1 m1).
  - rewrite Ha in Hr1.
    rewrite H1, (submit_not_ok network w2 r1 v1 m1) by done.
    cbn. by rewrite He, Hm.
Qed.

(** X8. A completed submission is always decided, and its failure is put
    in red: [contactSuccess] ends [true] or [false], never [null]; when it
    ends [false], the element built for the feedback is a [span] of class
    [text-red-400], and the page shows in it a text that is not empty (the
    network-error text, the message of the server or the generic text),
    unless the response, not OK, carried as its [message] a truthy value
    that is not a string, which is then the child of that [span]. *)
Theorem submit_failure_is_shown (w : World) :
  contactSuccess (ui (submit w).2) ≠ None
  ∧ (contactSuccess (ui (submit w).2) = Some false →
     feedback (render (ui (submit w).2))
       = Span "text-sm mr-3 text-red-400" (contactFeedback (ui (submit w).2))
     ∧ ((∃ text, text ≠ ""
           ∧ contactFeedback (ui (submit w).2) = JString text
           ∧ on_screen (ui (submit w).2) = Some (render (ui (submit w).2))
           ∧ slot_text (feedback (render (ui (submit w).2))) = Some text)
        ∨ (∃ response result message,
             answer w = Some response ∧ ok response = false
             ∧ content response = JsonText result
             ∧ member result "message" = Some message
             ∧ ToBoolean message = true
             ∧ (∀ text, message ≠ JString text)
             ∧ contactFeedback (ui (submit w).2) = message))).
Proof.
  destruct (submit_cases network w)
    as [[e ->] | [(? & ? & m & _ & _ & _ & _ & ->)
                 | (r & v & m & Hr & Hok & Hc & Hm & ->)]]; cbn [snd ui].
  - split; [done | intros _]. split; [reflexivity |]. left.
    exists "Network error. Please ensure the backend server is running.".
    by repeat split.
  - split; [done | discriminate].
  - split; [done | intros _]. cbn [contactSuccess contactFeedback].
    split.
    { unfold render, and_then, or_else; cbn.
      by destruct (ToBoolean m) eqn:Hb; cbn; rewrite ?Hb. }
    destruct (on_screen_feedback
                {| contactEmail := contactEmail (ui w);
                   contactMessage := contactMessage (ui w);
                   contactLoading := false; contactSuccess := Some false;
                   contactFeedback :=
                     or_else m (JString "Something went wrong. Please try again.") |})
      as [Hslot Hscreen].
    rewrite Hslot, Hscreen. cbn [contactFeedback]. unfold or_else.
    destruct (ToBoolean m) eqn:Hb.
    + destruct m as [| | b | x | text | elems | props];
        try (right; exists r, v; eexists; repeat split; eauto; discriminate).
      left. exists text. repeat split; [by apply truthy_string | done ..].
    + left. exists "Something went wrong. Please try again.". by repeat split.
Qed.

(** X9. The form shows a feedback of class [text-green-400] after a
    submission only if the request got a success (2xx) response whose JSON
    body carries that feedback as its [message]. *)
Theorem green_feedback_means_accepted (w : World) (child : jsval) :
  feedback (render (ui (submit w).2)) = Span "text-sm mr-3 text-green-400" child →
  ∃ response result,
    answer w = Some response ∧ ok response = true
    ∧ content response = JsonText result
    ∧ member result "message" = Some child.
Proof.
  destruct (submit_cases network w)
    as [[e ->] | [(r & v & m & Hr & Hok & Hc & Hm & ->)
                 | (r & v & m & Hr & Hok & Hc & Hm & ->)]];
    unfold render, and_then; cbn.
  - discriminate.
  - destruct (ToBoolean m); [| discriminate].
    intros [= <-]. by exists r, v.
  - destruct (ToBoolean (or_else m _)); discriminate.
Qed.

(** X11. Once a submission has completed, the form is on screen with the
    [Send] button enabled again and the [Sending...] note gone, and, unless
    the submission succeeded, with the two inputs showing what had been
    typed; or else nothing of it is on screen, React having thrown on the
    feedback, which happens only when the response carried as its
    [message] a plain object, or an array holding one. *)
Theorem form_after_submit (w : World) :
  (on_screen (ui (submit w).2) = Some (render (ui (submit w).2))
   ∧ send_disabled (render (ui (submit w).2)) = false
   ∧ sending (render (ui (submit w).2)) = Value (JBool false)
   ∧ (contactSuccess (ui (submit w).2) ≠ Some true →
      email_value (render (ui (submit w).2)) = contactEmail (ui w)
      ∧ message_value (render (ui (submit w).2)) = contactMessage (ui w)))
  ∨ (on_screen (ui (submit w).2) = None
     ∧ ∃ response result message,
         answer w = Some response
         ∧ content response = JsonText result
         ∧ member result "message" = Some message
         ∧ child_text message = None).
Proof.
  destruct (submit_cases network w)
    as [[e ->] | [(r & v & m & Hr & Hok & Hc & Hm & ->)
                 | (r & v & m & Hr & Hok & Hc & Hm & ->)]]; cbn [snd ui].
  - left. by repeat split.
  - rewrite (proj2 (on_screen_feedback _)). cbn [contactFeedback].
    destruct (child_text m) eqn:Ht.
    + left. by repeat split.
    + right. split; [done |]. by exists r, v, m.
  - rewrite (proj2 (on_screen_feedback _)). cbn [contactFeedback].
    unfold or_else. destruct (ToBoolean m) eqn:Hb.
    + destruct (child_text m) eqn:Ht.
      * left. by repeat split.
      * right. split; [done |]. by exists r, v, m.
    + left. by repeat split.
Qed.

(** X10. While the request is under way the form shows the [Sending...]
    note, the [Send] button is disabled and no feedback of an earlier
    submission is left; the inputs show what was typed.  That state is the
    one the statements before the first [await] produce, and the whole
    handler run from it ends as the handler run from the start. *)
Theorem form_while_waiting (w : World) :
  (until_first_await w).1 = Normal tt
  ∧ render (ui (until_first_await w).2)
    = {| email_value := contactEmail (ui w);
         message_value := contactMessage (ui w);
         sending := Span "text-slate-400 text-sm mr-3" (JString "Sending...");
         feedback := Value (JString "");
         send_disabled := true |}
  ∧ submit (until_first_await w).2 = submit w.
Proof.
  destruct w as [[email message loading success fb] p errs].
  repeat split.
Qed.

End Controller.

(** X6. The handler consults the network at one request and no other, the
    [POST] to [CONTACT_API_URL] carrying the email and the message of the
    form: two networks that answer that request alike lead to the same
    result, and two that answer it differently, one with no response and
    one with a success response of usable JSON, lead to different
    results. *)
Theorem submit_reads_one_answer
    (network1 network2 : string → FetchInit → option HttpResponse) (w : World) :
  (network1 CONTACT_API_URL
     (submission (contactEmail (ui w)) (contactMessage (ui w)))
   = network2 CONTACT_API_URL
       (submission (contactEmail (ui w)) (contactMessage (ui w))) →
   handleContactSubmit network1 w = handleContactSubmit network2 w)
  ∧ (network1 CONTACT_API_URL
       (submission (contactEmail (ui w)) (contactMessage (ui w))) = None →
     (∃ response result message,
        network2 CONTACT_API_URL
          (submission (contactEmail (ui w)) (contactMessage (ui w)))
        = Some response
        ∧ ok response = true ∧ content response = JsonText result
        ∧ member result "message" = Some message) →
     handleContactSubmit network1 w ≠ handleContactSubmit network2 w).
Proof.
  split.
  - intros H. destruct w as [[email message loading success fb] p errs].
    cbv [handleContactSubmit try_catch_finally fetch mbind M_bind get
         preventDefault setContactLoading setContactSuccess setContactFeedback
         update ui contactEmail contactMessage].
    cbn in H. by rewrite H.
  - intros H1 (r & v & m & H2 & Hok & Hc & Hm).
    rewrite (submit_fetch_rejected network1 w H1),
      (submit_ok network2 w r v m H2 Hc Hm Hok).
    intros Heq. apply (f_equal (fun x => contactSuccess (ui x.2))) in Heq.
    discriminate Heq.
Qed.

(** * The page and its backend together *)

Section RoundTrip.

Variable Number_toString : spec_float -> string.
Variable out : Console.

Local Abbreviation backend := (System.loopback Number_toString out).

Lemma submission_email (email message : string) (o : gmap string jsval) :
  o = {[ "email" := JString email; "message" := JString message ]} →
  o !! "email" = Some (JString email) ∧ o !! "message" = Some (JString message)
  ∧ size o = 2.
Proof.
  intros ->. split; [apply lookup_insert_eq |]. split.
  - rewrite lookup_insert_ne by done. apply lookup_singleton_eq.
  - rewrite map_size_insert_None by (by rewrite lookup_singleton_ne).
    by rewrite map_size_singleton.
Qed.

Lemma member_reply (b : bool) (text : string) :
  member (reply b text) "message" = Some (JString text).
Proof.
  unfold reply, member, prop.
  rewrite lookup_insert_ne by done. by rewrite lookup_singleton_eq.
Qed.

(** The request of a submission goes through [express.json()]. *)
Lemma backend_answer (email message : string) :
  backend CONTACT_API_URL (submission email message)
  = match express_json (System.JSON_stringify_submission email message)
            {[ "email" := JString email; "message" := JString message ]} with
    | Some req =>
        Some {| status :=
                  statusCode (serve (post_contact Number_toString) req out).1;
                content :=
                  match sent (serve (post_contact Number_toString) req out).1 with
                  | Some (Json v) => JsonText v
                  | _ => NotJson
                  end |}
    | None => Some {| status := 413; content := NotJson |}
    end.
Proof.
  destruct (submission_email email message _ eq_refl) as (Hle & Hlm & Hsize).
  unfold System.loopback, submission. cbn [payload method headers].
  rewrite Hle, Hlm.
  rewrite bool_decide_eq_true_2; [done |].
  split; [done |]. split; [done |]. split; [by constructor | done].
Qed.

Lemma express_json_within (email message : string) (o : gmap string jsval) :
  within_limit email message →
  express_json (System.JSON_stringify_submission email message) o
  = Some {| body := o |}.
Proof.
  unfold within_limit, express_json. intros H.
  by rewrite (proj2 (Z.ltb_ge _ _) H).
Qed.

Lemma express_json_over (email message : string) (o : gmap string jsval) :
  ¬ within_limit email message →
  express_json (System.JSON_stringify_submission email message) o = None.
Proof.
  unfold within_limit, express_json. intros H.
  by rewrite (proj2 (Z.ltb_lt _ _)) by lia.
Qed.

Lemma backend_answer_filled (email message : string) :
  email ≠ "" → message ≠ "" → within_limit email message →
  backend CONTACT_API_URL (submission email message)
  = Some {| status := 200;
            content := JsonText (reply true "Your message has been sent successfully!") |}.
Proof.
  intros He Hm Hfit.
  destruct (submission_email email message _ eq_refl) as (Hle & Hlm & _).
  rewrite backend_answer, express_json_within by done. unfold serve.
  rewrite (post_contact_logs _ _ _ _ email message);
    cbn [body]; rewrite ?(prop_string _ _ _ Hle), ?(prop_string _ _ _ Hlm);
    try done.
  - by destruct email.
  - by destruct message.
Qed.

Lemma backend_answer_empty (email message : string) :
  email = "" ∨ message = "" → within_limit email message →
  backend CONTACT_API_URL (submission email message)
  = Some {| status := 400;
            content := JsonText (reply false "Email and message are required.") |}.
Proof.
  intros H Hfit.
  destruct (submission_email email message _ eq_refl) as (Hle & Hlm & _).
  rewrite backend_answer, express_json_within by done. unfold serve.
  rewrite post_contact_rejects; [reflexivity |]. cbn [body]. unfold prop.
  rewrite Hle, Hlm. destruct H as [-> | ->]; auto.
Qed.

Lemma backend_answer_over (email message : string) :
  ¬ within_limit email message →
  backend CONTACT_API_URL (submission email message)
  = Some {| status := 413; content := NotJson |}.
Proof. intros H. by rewrite backend_answer, express_json_over. Qed.

(** X12. Submitting a form whose email and message are both non-empty, and
    short enough for the JSON text of the request to pass the 100kb limit
    of [express.json()], to the backend of the repository ends with both
    inputs cleared, the success flag set, the feedback "Your message has
    been sent successfully!", loading off and nothing on the error
    console. *)
Theorem backend_accepts_filled_form (w : World) :
  contactEmail (ui w) ≠ "" → contactMessage (ui w) ≠ "" →
  within_limit (contactEmail (ui w)) (contactMessage (ui w)) →
  handleContactSubmit backend w =
    (Normal tt,
     {| ui := {| contactEmail := ""; contactMessage := "";
                 contactLoading := false; contactSuccess := Some true;
                 contactFeedback :=
                   JString "Your message has been sent successfully!" |};
        defaultPrevented := true;
        console_errors := console_errors w |}).
Proof.
  intros He Hm Hfit.
  apply (submit_ok backend w _ _ _ (backend_answer_filled _ _ He Hm Hfit) eq_refl
           (member_reply _ _) eq_refl).
Qed.

(** X13. When the handler runs on a form whose email or message is empty
    (the [required] attributes of the inputs aside), the request passing
    the limit, the backend's answer leaves the inputs as they were, the
    success flag [false] and the backend's own text "Email and message are
    required." as feedback, and nothing on the error console. *)
Theorem backend_rejects_empty_field (w : World) :
  contactEmail (ui w) = "" ∨ contactMessage (ui w) = "" →
  within_limit (contactEmail (ui w)) (contactMessage (ui w)) →
  handleContactSubmit backend w =
    (Normal tt,
     {| ui := {| contactEmail := contactEmail (ui w);
                 contactMessage := contactMessage (ui w);
                 contactLoading := false; contactSuccess := Some false;
                 contactFeedback := JString "Email and message are required." |};
        defaultPrevented := true;
        console_errors := console_errors w |}).
Proof.
  intros H Hfit.
  apply (submit_not_ok backend w _ _ _ (backend_answer_empty _ _ H Hfit) eq_refl
           (member_reply _ _) eq_refl).
Qed.

(** X14. Against the backend of the repository the [catch] block runs, and
    a line goes to the error console, exactly when the JSON text of the
    request is over the 100kb limit of [express.json()]: the 413 page that
    Express then sends is not JSON, and the form shows the network-error
    text.  The submission succeeds exactly when both the email and the
    message are non-empty and the request passes the limit. *)
Theorem backend_catch_only_over_limit (w : World) :
  (console_errors (handleContactSubmit backend w).2 = console_errors w
   ↔ within_limit (contactEmail (ui w)) (contactMessage (ui w)))
  ∧ (¬ within_limit (contactEmail (ui w)) (contactMessage (ui w)) →
     handleContactSubmit backend w = (Normal tt, failed_world w BodyNotJson))
  ∧ (contactSuccess (ui (handleContactSubmit backend w).2) = Some true
     ↔ contactEmail (ui w) ≠ "" ∧ contactMessage (ui w) ≠ ""
       ∧ within_limit (contactEmail (ui w)) (contactMessage (ui w))).
Proof.
  assert (Hover : ¬ within_limit (contactEmail (ui w)) (contactMessage (ui w)) →
                  handleContactSubmit backend w
                  = (Normal tt, failed_world w BodyNotJson)).
  { intros H. by apply (submit_body_not_json backend w _ (backend_answer_over _ _ H)). }
  destruct (Z.le_gt_cases
              (Z.of_nat (String.length
                 (System.JSON_stringify_submission
                    (contactEmail (ui w)) (contactMessage (ui w)))))
              json_limit) as [Hfit | Hfit];
    [fold (within_limit (contactEmail (ui w)) (contactMessage (ui w))) in Hfit
    | apply Z.lt_nge in Hfit;
      fold (within_limit (contactEmail (ui w)) (contactMessage (ui w))) in Hfit].
  - split; [| split; [done |]].
    + split; [done | intros _].
      destruct (decide (contactEmail (ui w) = "")) as [He | He];
        [| destruct (decide (contactMessage (ui w) = "")) as [Hm | Hm]].
      * by rewrite (submit_not_ok backend w _ _ _
                      (backend_answer_empty _ _ (or_introl He) Hfit)
                      eq_refl (member_reply _ _) eq_refl).
      * by rewrite (submit_not_ok backend w _ _ _
                      (backend_answer_empty _ _ (or_intror Hm) Hfit)
                      eq_refl (member_reply _ _) eq_refl).
      * by rewrite (submit_ok backend w _ _ _
                      (backend_answer_filled _ _ He Hm Hfit)
                      eq_refl (member_reply _ _) eq_refl).
    + destruct (decide (contactEmail (ui w) = "")) as [He | He];
        [| destruct (decide (contactMessage (ui w) = "")) as [Hm | Hm]].
      * rewrite (submit_not_ok backend w _ _ _
                   (backend_answer_empty _ _ (or_introl He) Hfit)
                   eq_refl (member_reply _ _) eq_refl).
        cbn [snd ui contactSuccess]. split; [discriminate | tauto].
      * rewrite (submit_not_ok backend w _ _ _
                   (backend_answer_empty _ _ (or_intror Hm) Hfit)
                   eq_refl (member_reply _ _) eq_refl).
        cbn [snd ui contactSuccess]. split; [discriminate | tauto].
      * rewrite (submit_ok backend w _ _ _
                   (backend_answer_filled _ _ He Hm Hfit)
                   eq_refl (member_reply _ _) eq_refl).
        cbn [snd ui contactSuccess].
        split; [intros _; exact (conj He (conj Hm Hfit)) | intros _; reflexivity].
  - rewrite (Hover Hfit). split; [| split; [done |]].
    + split; [| intros H; destruct (Hfit H)].
      unfold failed_world. cbn [snd console_errors]. intros H.
      apply (f_equal length) in H. rewrite length_app in H. cbn in H. lia.
    + unfold failed_world. cbn [snd ui contactSuccess]. split; [discriminate | tauto].
Qed.

(** X15. Trying again works without typing again: when a first submission
    of a filled form, one that passes the limit, found no server, a second
    one, once the backend answers, sends the same fields and succeeds; the
    console holds the one error of the first attempt. *)
Theorem retry_after_network_failure (w : World) :
  contactEmail (ui w) ≠ "" → contactMessage (ui w) ≠ "" →
  within_limit (contactEmail (ui w)) (contactMessage (ui w)) →
  handleContactSubmit backend (handleContactSubmit unreachable w).2 =
    (Normal tt,
     {| ui := {| contactEmail := ""; contactMessage := "";
                 contactLoading := false; contactSuccess := Some true;
                 contactFeedback :=
                   JString "Your message has been sent successfully!" |};
        defaultPrevented := true;
        console_errors :=
          (console_errors w
             ++ [("Error submitting contact form:", FetchFailed)])%list |}).
Proof.
  intros He Hm Hfit.
  rewrite (submit_fetch_rejected unreachable w eq_refl).
  cbn [snd].
  apply (submit_ok backend (failed_world w FetchFailed) _ _ _
           (backend_answer_filled _ _ He Hm Hfit) eq_refl (member_reply _ _) eq_refl).
Qed.

End RoundTrip.

(** * The mount effect *)

Import Mount.

Lemma mount_effect_blocks (document : list (gset string)) :
  mount_effect document = animate_all animations document.
Proof. reflexivity. Qed.

Lemma animations_separate : separate animations.
Proof. unfold separate, animations. repeat (constructor; try done). Qed.

Lemma classList_add_idemp (a : string) (e : gset string) :
  classList_add a (classList_add a e) = classList_add a e.
Proof. unfold classList_add. by rewrite (assoc_L (∪)), (idemp_L (∪)). Qed.

Lemma classList_add_comm (a b : string) (e : gset string) :
  classList_add a (classList_add b e) = classList_add b (classList_add a e).
Proof.
  unfold classList_add. by rewrite !(assoc_L (∪)), (comm_L (∪) {[a]} {[b]}).
Qed.

Lemma querySelector_None (c : string) (document : list (gset string)) :
  querySelector c document = None ↔ Forall (fun e => c ∉ e) document.
Proof.
  induction document as [| e rest IH]; cbn; [by split |].
  case_bool_decide as Hc.
  - split; [discriminate |]. intros H. by inversion H.
  - rewrite fmap_None, IH. split; [by constructor |]. intros H. by inversion H.
Qed.

Lemma querySelector_Some (c : string) (document : list (gset string)) (i : nat) :
  querySelector c document = Some i →
  ∃ e, document !! i = Some e ∧ c ∈ e.
Proof.
  revert i. induction document as [| e rest IH]; intros i; cbn; [discriminate |].
  case_bool_decide as Hc.
  - intros [= <-]. eauto.
  - destruct (querySelector c rest) as [j |]; [| discriminate].
    intros [= <-]. by apply IH.
Qed.

(** Adding a class leaves every look-up for another class as it was. *)
Lemma querySelector_alter (c a : string) (i : nat) (document : list (gset string)) :
  a ≠ c →
  querySelector c (alter (classList_add a) i document) = querySelector c document.
Proof.
  intros Hac. revert i. induction document as [| e rest IH]; intros [| i]; cbn;
    [done | done | |].
  - apply (f_equal (fun b : bool => if b then Some 0 else S <$> querySelector c rest)).
    apply bool_decide_ext. unfold classList_add.
    rewrite elem_of_union, elem_of_singleton.
    split; [intros [Hca | H]; [by subst | done] | by right].
  - by rewrite IH.
Qed.

Lemma querySelector_animate (c c' a : string) (document : list (gset string)) :
  a ≠ c → querySelector c (animate c' a document) = querySelector c document.
Proof.
  intros Hac. unfold animate.
  destruct (querySelector c' document); [by apply querySelector_alter | done].
Qed.

Lemma animate_idemp (c a : string) (document : list (gset string)) :
  a ≠ c → animate c a (animate c a document) = animate c a document.
Proof.
  intros Hac. unfold animate at 1. rewrite querySelector_animate by done.
  unfold animate. destruct (querySelector c document) as [i |]; [| done].
  rewrite list_alter_alter_eq. apply list_alter_ext; [| done].
  intros e _. apply classList_add_idemp.
Qed.

Lemma animate_comm (c a c' a' : string) (document : list (gset string)) :
  a ≠ c' → a' ≠ c →
  animate c a (animate c' a' document) = animate c' a' (animate c a document).
Proof.
  intros H1 H2. unfold animate at 1 3. rewrite !querySelector_animate by done.
  unfold animate.
  destruct (querySelector c document) as [i |],
           (querySelector c' document) as [j |]; try done.
  destruct (decide (i = j)) as [-> | Hij]; [| by apply list_alter_alter_ne].
  rewrite !list_alter_alter_eq. apply list_alter_ext; [| done].
  intros e _. apply classList_add_comm.
Qed.

Lemma animate_all_cons (p : string * string) (pairs : list (string * string))
    (document : list (gset string)) :
  animate_all (p :: pairs) document = animate_all pairs (animate p.1 p.2 document).
Proof. reflexivity. Qed.

Lemma animate_all_comm (c a : string) (pairs : list (string * string))
    (document : list (gset string)) :
  Forall (fun q => q.2 ≠ c ∧ a ≠ q.1) pairs →
  animate_all pairs (animate c a document) = animate c a (animate_all pairs document).
Proof.
  revert document. induction pairs as [| q pairs IH]; intros document H; [done |].
  inversion H as [| ? ? [Hq1 Hq2] Hrest]; subst.
  rewrite !animate_all_cons, <- IH by done.
  by rewrite (animate_comm q.1 q.2 c a).
Qed.

Lemma separate_cons (p : string * string) (pairs : list (string * string)) :
  separate (p :: pairs) →
  p.2 ≠ p.1 ∧ Forall (fun q => q.2 ≠ p.1 ∧ p.2 ≠ q.1) pairs ∧ separate pairs.
Proof.
  unfold separate. intros H. inversion H as [| ? ? Hp Hrest]; subst.
  inversion Hp as [| ? ? Hpp Hp']; subst. split; [done |]. split.
  - apply Forall_forall. intros q Hq. split.
    + by eapply Forall_forall in Hp'.
    + eapply Forall_forall in Hrest; [| exact Hq]. by inversion Hrest.
  - eapply Forall_impl; [exact Hrest |]. intros q Hq. by inversion Hq.
Qed.

Lemma animate_all_idemp (pairs : list (string * string))
    (document : list (gset string)) :
  separate pairs →
  animate_all pairs (animate_all pairs document) = animate_all pairs document.
Proof.
  revert document. induction pairs as [| p pairs IH]; intros document Hsep; [done |].
  apply separate_cons in Hsep as (Hp & Hcross & Hsep).
  rewrite !animate_all_cons.
  rewrite <- (animate_all_comm p.1 p.2 pairs (animate p.1 p.2 document)) by done.
  rewrite animate_idemp by done. by apply IH.
Qed.

(** X16. Running the mount effect a second time changes nothing, on any
    document: the double invocation of effects under [React.StrictMode],
    in which [main.jsx] renders [App], leaves the classes as one run
    does. *)
Theorem mount_effect_idempotent (document : list (gset string)) :
  mount_effect (mount_effect document) = mount_effect document.
Proof.
  rewrite !mount_effect_blocks. apply animate_all_idemp, animations_separate.
Qed.

Lemma grown_refl (names e : gset string) : grown names e e.
Proof. split; [done | apply union_subseteq_r]. Qed.

Lemma grown_trans (names1 names2 e1 e2 e3 : gset string) :
  grown names1 e1 e2 → grown names2 e2 e3 → grown (names1 ∪ names2) e1 e3.
Proof.
  intros [H12 H21] [H23 H32]. split; [by etrans |].
  intros x Hx. apply H32 in Hx. apply elem_of_union in Hx as [Hx | Hx].
  - apply elem_of_union_l. by apply elem_of_union_r.
  - apply H21 in Hx. apply elem_of_union in Hx as [Hx | Hx].
    + apply elem_of_union_l. by apply elem_of_union_l.
    + by apply elem_of_union_r.
Qed.

Lemma animate_grows (c a : string) (document : list (gset string)) :
  Forall2 (grown {[ a ]}) document (animate c a document).
Proof.
  unfold animate. destruct (querySelector c document) as [i |].
  - apply Forall2_same_length_lookup_2; [by rewrite length_alter |].
    intros j e e' He. rewrite list_lookup_alter. case_decide as Hij.
    + subst j. rewrite He. intros [= <-]. unfold classList_add.
      split; [apply union_subseteq_r | done].
    + rewrite He. intros [= <-]. apply grown_refl.
  - apply Forall2_same_length_lookup_2; [done |].
    intros j e e' He. rewrite He. intros [= <-]. apply grown_refl.
Qed.

Lemma animate_all_grows (pairs : list (string * string))
    (document : list (gset string)) :
  Forall2 (grown (list_to_set pairs.*2)) document (animate_all pairs document).
Proof.
  revert document. induction pairs as [| p pairs IH]; intros document.
  - apply Forall2_same_length_lookup_2; [done |].
    intros j e e' He. cbn. rewrite He. intros [= <-]. apply grown_refl.
  - rewrite animate_all_cons.
    pose proof (animate_grows p.1 p.2 document) as H1.
    pose proof (IH (animate p.1 p.2 document)) as H2.
    apply Forall2_same_length_lookup_2.
    { by rewrite <- (Forall2_length _ _ _ H2), <- (Forall2_length _ _ _ H1). }
    intros j e e'' He He''.
    destruct (Forall2_lookup_l _ _ _ _ _ H1 He) as (e' & He' & Hg1).
    destruct (Forall2_lookup_l _ _ _ _ _ H2 He') as (e3 & He3 & Hg2).
    rewrite He'' in He3. injection He3 as <-.
    apply (grown_trans _ _ _ _ _ Hg1 Hg2).
Qed.

(** X17. The mount effect only adds classes: the document keeps its
    elements, in order; each keeps every class it had, and gains none but
    the six [...-animate] classes. *)
Theorem mount_effect_only_adds (document : list (gset string)) :
  Forall2 (grown (list_to_set animations.*2)) document (mount_effect document).
Proof. rewrite mount_effect_blocks. apply animate_all_grows. Qed.

Lemma animate_absent (c a : string) (document : list (gset string)) :
  Forall (fun e => c ∉ e) document → animate c a document = document.
Proof. intros H. apply querySelector_None in H. unfold animate. by rewrite H. Qed.

Lemma animate_all_absent (pairs : list (string * string))
    (document : list (gset string)) :
  Forall (fun p => Forall (fun e : gset string => p.1 ∉ e) document) pairs →
  animate_all pairs document = document.
Proof.
  induction pairs as [| p pairs IH]; intros H; [done |].
  inversion H as [| ? ? Hp Hrest]; subst.
  rewrite animate_all_cons, animate_absent by done. by apply IH.
Qed.

(** X18. The [if (element)] guards hold: on a document none of whose
    elements carries one of the six classes the effect looks up (the empty
    document among them), the effect changes nothing. *)
Theorem mount_effect_without_targets (document : list (gset string)) :
  (∀ (e : gset string) (c : string),
     e ∈ document → c ∈ animations.*1 → c ∉ e) →
  mount_effect document = document.
Proof.
  intros H. rewrite mount_effect_blocks. apply animate_all_absent.
  apply Forall_forall. intros p Hp. apply Forall_forall. intros e He.
  apply (H e p.1 He). by apply list_elem_of_fmap_2.
Qed.

Lemma animate_target (c a : string) (document : list (gset string)) (i : nat) :
  querySelector c document = Some i →
  ∃ e', animate c a document !! i = Some e' ∧ a ∈ e'.
Proof.
  intros H. unfold animate. rewrite H.
  destruct (querySelector_Some _ _ _ H) as (e & He & _).
  exists (classList_add a e). rewrite list_lookup_alter_eq, He. split; [done |].
  unfold classList_add. apply elem_of_union_l. by apply elem_of_singleton.
Qed.

Lemma animate_all_target (pairs : list (string * string))
    (document : list (gset string)) (p : string * string) (i : nat) :
  separate pairs → p ∈ pairs →
  querySelector p.1 document = Some i →
  ∃ e', animate_all pairs document !! i = Some e' ∧ p.2 ∈ e'.
Proof.
  revert document. induction pairs as [| q pairs IH]; intros document Hsep Hp Hq;
    [by apply elem_of_nil in Hp |].
  pose proof Hsep as Hsep0.
  apply separate_cons in Hsep as (Hqq & Hcross & Hsep').
  rewrite animate_all_cons.
  apply elem_of_cons in Hp as [-> | Hp].
  - destruct (animate_target q.1 q.2 document i Hq) as (e' & He' & Ha).
    destruct (Forall2_lookup_l _ _ _ _ _
                (animate_all_grows pairs (animate q.1 q.2 document)) He')
      as (e'' & He'' & Hsub & _).
    exists e''. split; [done | by apply Hsub].
  - apply IH; [done | done |].
    rewrite querySelector_animate; [done |].
    eapply Forall_forall in Hcross; [| exact Hp]. by destruct Hcross.
Qed.

(** X19. Each block reaches its target: for each of the six classes the
    effect looks up, the first element of the document that carries it
    carries the matching [...-animate] class once the effect has run. *)
Theorem mount_effect_animates_first_match (document : list (gset string))
    (c a : string) (i : nat) :
  (c, a) ∈ animations →
  querySelector c document = Some i →
  ∃ e', mount_effect document !! i = Some e' ∧ a ∈ e'.
Proof.
  intros Hp Hq. rewrite mount_effect_blocks.
  apply (animate_all_target animations document (c, a) i animations_separate Hp Hq).
Qed.

(** * Typing into the form *)

(** X20. The two inputs are controlled: typing into one makes it show the
    new value and changes nothing else on the form; in particular the
    feedback of an earlier submission stays on screen while the user
    edits. *)
Theorem typing_changes_one_input (w : World) (value : string) :
  render (ui (onChange_email value w).2)
  = {| email_value := value;
       message_value := message_value (render (ui w));
       sending := sending (render (ui w));
       feedback := feedback (render (ui w));
       send_disabled := send_disabled (render (ui w)) |}
  ∧ render (ui (onChange_message value w).2)
    = {| email_value := email_value (render (ui w));
         message_value := value;
         sending := sending (render (ui w));
         feedback := feedback (render (ui w));
         send_disabled := send_disabled (render (ui w)) |}.
Proof. destruct w as [[email message loading success fb] p errs]. by split. Qed.

(** * The further properties at sample inputs *)

(** A body with a third property is treated as the body without it. *)
Lemma post_contact_reads_two_fields_witness :
  serve (post_contact (fun _ => "NaN"))
    {| body := {[ "email" := JString "a@b.com"; "message" := JString "hi";
                  "admin" := JBool true ]} |} ["earlier line"]
  = serve (post_contact (fun _ => "NaN"))
      {| body := {[ "email" := JString "a@b.com"; "message" := JString "hi" ]} |}
      ["earlier line"].
Proof.
  apply (post_contact_reads_two_fields (fun _ => "NaN")); reflexivity.
Defined.

(** Answering other addresses does not matter to the handler. *)
Lemma submit_reads_one_answer_witness :
  handleContactSubmit unreachable (typed "a@b.com" "hi")
  = handleContactSubmit
      (fun u _ => if String.eqb u CONTACT_API_URL then None
                  else Some {| status := 200; content := NotJson |})
      (typed "a@b.com" "hi").
Proof.
  apply (proj1 (submit_reads_one_answer unreachable
                  (fun u _ => if String.eqb u CONTACT_API_URL then None
                              else Some {| status := 200; content := NotJson |})
                  (typed "a@b.com" "hi"))).
  reflexivity.
Defined.

(** A page showing an old error and a fresh page end alike. *)
Lemma submit_forgets_previous_outcome_witness :
  ui (handleContactSubmit unreachable
        {| ui := {| contactEmail := "a@b.com"; contactMessage := "hi";
                    contactLoading := true; contactSuccess := Some true;
                    contactFeedback := JString "old" |};
           defaultPrevented := false; console_errors := [] |}).2
  = ui (handleContactSubmit unreachable (typed "a@b.com" "hi")).2.
Proof.
  apply (submit_forgets_previous_outcome unreachable); reflexivity.
Defined.

(** The green feedback of an accepted submission. *)
Lemma green_feedback_means_accepted_witness :
  ∃ response result,
    System.loopback (fun _ => "NaN") [] CONTACT_API_URL (submission "a@b.com" "hi")
      = Some response
    ∧ ok response = true
    ∧ content response = JsonText result
    ∧ member result "message"
      = Some (JString "Your message has been sent successfully!").
Proof.
  apply (green_feedback_means_accepted (System.loopback (fun _ => "NaN") [])
           (typed "a@b.com" "hi")
           (JString "Your message has been sent successfully!")).
  vm_compute. reflexivity.
Defined.

Lemma backend_accepts_filled_form_witness :
  handleContactSubmit (System.loopback (fun _ => "NaN") ["earlier line"])
    (typed "a@b.com" "hi")
  = (Normal tt,
     {| ui := {| contactEmail := ""; contactMessage := "";
                 contactLoading := false; contactSuccess := Some true;
                 contactFeedback :=
                   JString "Your message has been sent successfully!" |};
        defaultPrevented := true;
        console_errors := [] |}).
Proof.
  apply (backend_accepts_filled_form (fun _ => "NaN") ["earlier line"]
           (typed "a@b.com" "hi"));
    [discriminate | discriminate | apply Z.leb_le; vm_compute; reflexivity].
Defined.

Lemma backend_rejects_empty_field_witness :
  handleContactSubmit (System.loopback (fun _ => "NaN") []) (typed "a@b.com" "")
  = (Normal tt,
     {| ui := {| contactEmail := "a@b.com"; contactMessage := "";
                 contactLoading := false; contactSuccess := Some false;
                 contactFeedback := JString "Email and message are required." |};
        defaultPrevented := true;
        console_errors := [] |}).
Proof.
  apply (backend_rejects_empty_field (fun _ => "NaN") [] (typed "a@b.com" "")).
  - right. reflexivity.
  - apply Z.leb_le. vm_compute. reflexivity.
Defined.

Lemma retry_after_network_failure_witness :
  handleContactSubmit (System.loopback (fun _ => "NaN") [])
    (handleContactSubmit unreachable (typed "a@b.com" "hi")).2
  = (Normal tt,
     {| ui := {| contactEmail := ""; contactMessage := "";
                 contactLoading := false; contactSuccess := Some true;
                 contactFeedback :=
                   JString "Your message has been sent successfully!" |};
        defaultPrevented := true;
        console_errors := [("Error submitting contact form:", FetchFailed)] |}).
Proof.
  apply (retry_after_network_failure (fun _ => "NaN") [] (typed "a@b.com" "hi"));
    [discriminate | discriminate | apply Z.leb_le; vm_compute; reflexivity].
Defined.

(** A document of a navigation bar and a footer is left alone. *)
Lemma mount_effect_without_targets_witness :
  mount_effect [ {[ "nav" ]}; {[ "footer"; "text-sm" ]} ]
  = [ {[ "nav" ]}; {[ "footer"; "text-sm" ]} ].
Proof.
  apply mount_effect_without_targets.
  intros e c He Hc. revert e He. apply Forall_forall. revert c Hc. apply Forall_forall.
  apply (bool_decide_unpack _). vm_compute. exact I.
Defined.

(** The hero block, second in the document, is animated. *)
Lemma mount_effect_animates_first_match_witness :
  ∃ e', mount_effect [ {[ "nav" ]}; {[ "flex-1"; "hero-left"; "hero-left-initial" ]} ]
          !! 1 = Some e'
        ∧ "hero-left-animate" ∈ e'.
Proof.
  apply (mount_effect_animates_first_match
           [ {[ "nav" ]}; {[ "flex-1"; "hero-left"; "hero-left-initial" ]} ]
           "hero-left" "hero-left-animate" 1).
  - apply (bool_decide_unpack _). vm_compute. exact I.
  - vm_compute. reflexivity.
Defined.
